(** * rgb-proxy-server: the JSON-RPC handlers of [src/controllers/api.ts]

    A shallow embedding of the request handlers (parameter extraction, the
    consignment / media registry, the acknowledgment flag and the staging of
    uploaded files) together with the properties stated about them. *)

From Stdlib Require Import ZArith NArith String Ascii List Lia SpecFloat.
From Stdlib Require Import Strings.Byte.
From stdpp Require Import base option list gmap strings.

Set Warnings "-register-all".
Local Open Scope string_scope.

(** ** Request values

    A request's [params] is whatever [JSON.parse] (or the multipart body
    parser) produced.  Numbers are IEEE doubles, given by their sign,
    mantissa and exponent; an object is the list of its entries (one per
    key), read by key. *)

Inductive json : Type :=
  | JNull
  | JBool (b : bool)
  | JNum (n : spec_float)
  | JStr (s : string)
  | JArr (items : list json)
  | JObj (entries : list (string * json)).

(** [jsonRpcParams] is [Partial<JSONRPCParams> | undefined]: [None] is the
    JavaScript value [undefined]. *)
Definition params := option json.

(** [key in obj] and [obj[key]] for an own property of a parsed object. *)
Fixpoint obj_get (key : string) (entries : list (string * json)) : option json :=
  match entries with
  | [] => None
  | (k, v) :: rest => if String.eqb k key then Some v else obj_get key rest
  end.

(** The errors of [src/errors] (each echoes the offending parameters), and
    the failures of the collaborators the handlers call. *)
Inductive error : Type :=
  | CannotChangeAck (p : params)
  | CannotChangeUploadedFile (p : params)
  | InvalidAck (p : params)
  | InvalidAttachmentID (p : params)
  | InvalidRecipientID (p : params)
  | InvalidTxid (p : params)
  | InvalidVout (p : params)
  | MissingAck (p : params)
  | MissingAttachmentID (p : params)
  | MissingFile (p : params)
  | MissingRecipientID (p : params)
  | MissingTxid (p : params)
  | NotFoundConsignment (p : params)
  | NotFoundMedia (p : params)
  | FsNoEntry (dir name : string)
  | TypeError
  | SqliteBindError
  | SqliteConstraintUnique
  | JsonSyntaxError
  | MethodNotFound (name : string).

Inductive result (A : Type) : Type :=
  | Ok (a : A)
  | Throw (e : error).
Arguments Ok {A} a.
Arguments Throw {A} e.

(** ** Type guards (api.ts, lines 94-108) *)

(** [Boolean(data) === data] *)
Definition isBoolean (data : json) : bool :=
  match data with JBool _ => true | _ => false end.

(** [typeof data === "object" && !Array.isArray(data) && data !== null] *)
Definition isDictionary (data : params) : bool :=
  match data with Some (JObj _) => true | _ => false end.

Definition isString (data : json) : bool :=
  match data with JStr _ => true | _ => false end.

(** [Number.isInteger]: a finite double [m * 2^e] without fractional part. *)
Definition Number_isInteger (x : spec_float) : bool :=
  match x with
  | S754_zero _ => true
  | S754_finite _ m e =>
      if (0 <=? e)%Z then true else (Z.pos m mod 2 ^ (- e) =? 0)%Z
  | S754_infinity _ | S754_nan => false
  end.

(** JavaScript truthiness, the test behind [!x] and [x ? a : b]. *)
Definition truthy (data : json) : bool :=
  match data with
  | JNull => false
  | JBool b => b
  | JNum (S754_zero _) | JNum S754_nan => false
  | JNum _ => true
  | JStr s => negb (String.eqb s "")
  | JArr _ | JObj _ => true
  end.

(** The parts of the JavaScript runtime whose results the handlers only
    pass along or test: the numeric-string grammar; the conversion of an
    array or object to a number (through [valueOf] and [toString], with a
    [TypeError] when neither yields a primitive); the JSON printer and
    parser; and whether printing an array in a template literal throws (it
    does when the array holds an object whose [toString] member is not a
    function). *)
Class JSRuntime : Type := {
  StringToNumber : string -> spec_float;
  ObjectToNumber : json -> result spec_float;
  JSON_stringify : json -> string;
  JSON_parse : string -> option json;
  Array_toString_throws : list json -> bool
}.

(** The double 1, as [2^52 * 2^-52]. *)
Definition js_one : spec_float := S754_finite false 4503599627370496 (-52).

(** [Number(data)] on a request value: [null] and [false] are 0, [true] is
    1, a number is itself, a string goes through the numeric-string
    grammar. *)
Definition Number `{JSRuntime} (data : json) : result spec_float :=
  match data with
  | JNull => Ok (S754_zero false)
  | JBool true => Ok js_one
  | JBool false => Ok (S754_zero false)
  | JNum n => Ok n
  | JStr s => Ok (StringToNumber s)
  | JArr _ | JObj _ => ObjectToNumber data
  end.

(** [Number.isInteger(Number(data)) && data !== null] *)
Definition isNumber `{JSRuntime} (data : json) : result bool :=
  match Number data with
  | Throw e => Throw e
  | Ok n =>
      Ok (Number_isInteger n && match data with JNull => false | _ => true end)
  end.

(** *** What the numeric-string grammar promises

    [Number] applied to a string follows the grammar of numeric literals:
    white space, then a sign, a digit, a point or the word [Infinity].  Two
    of its consequences are all the handlers lean on, and they are stated
    for texts whose shape can be read off the characters. *)

Definition is_digit (c : ascii) : bool :=
  let n := N_of_ascii c in (48 <=? n)%N && (n <=? 57)%N.

Definition is_space (c : ascii) : bool :=
  let n := N_of_ascii c in ((9 <=? n)%N && (n <=? 13)%N) || (n =? 32)%N.

(** The characters a numeric literal, or the white space before it, can
    begin with; a character outside ASCII is taken to be one of them. *)
Definition may_start_numeral (c : ascii) : bool :=
  is_space c || is_digit c || Ascii.eqb c "+" || Ascii.eqb c "-"
  || Ascii.eqb c "." || Ascii.eqb c "I" || (128 <=? N_of_ascii c)%N.

(** A text that is no numeric literal by its first character, as ["abc"]. *)
Definition not_numeric (s : string) : bool :=
  match s with
  | "" => false
  | String c _ => negb (may_start_numeral c)
  end.

Fixpoint all_digits (s : string) : bool :=
  match s with
  | "" => true
  | String c rest => is_digit c && all_digits rest
  end.

Fixpoint all_zeros (s : string) : bool :=
  match s with
  | "" => true
  | String c rest => (N_of_ascii c =? 48)%N && all_zeros rest
  end.

(** The text before the first point, and the text after it if there is
    one. *)
Fixpoint split_dot (s : string) : string * option string :=
  match s with
  | "" => ("", None)
  | String c rest =>
      if Ascii.eqb c "." then ("", Some rest)
      else let '(whole, fraction) := split_dot rest in (String c whole, fraction)
  end.

(** An unsigned decimal numeral without exponent, as ["12"], ["1.5"],
    ["1."] or [".5"]: its digits before and after the point. *)
Definition numeral_parts (s : string) : option (string * string) :=
  let '(whole, fraction) := split_dot s in
  let fraction := match fraction with Some f => f | None => "" end in
  if all_digits whole && all_digits fraction
     && negb (String.eqb whole "" && String.eqb fraction "")
  then Some (whole, fraction)
  else None.

(** A text that cannot begin a numeric literal converts to [NaN]; and a
    decimal numeral of at most 15 digits converts to an integer exactly
    when its fraction is zero (with so few digits the nearest double of a
    value that is no integer is no integer either). *)
Class NumericStrings `{JSRuntime} : Prop := {
  StringToNumber_not_numeric :
    forall s, not_numeric s = true -> StringToNumber s = S754_nan;
  StringToNumber_decimal :
    forall s whole fraction,
      numeral_parts s = Some (whole, fraction) ->
      String.length whole + String.length fraction <= 15 ->
      Number_isInteger (StringToNumber s) = all_zeros fraction
}.

(** ** Parameter extractors (api.ts, lines 122-197) *)

Definition getAckParam (jsonRpcParams : params) : result bool :=
  match jsonRpcParams with
  | Some (JObj entries) =>
      match obj_get "ack" entries with
      | None => Throw (MissingAck jsonRpcParams)
      | Some ack =>
          if negb (isBoolean ack) then Throw (InvalidAck jsonRpcParams)
          else match ack with
               | JBool b => Ok b
               | _ => Throw (InvalidAck jsonRpcParams)
               end
      end
  | _ => Throw (MissingAck jsonRpcParams)
  end.

Definition getAttachmentIDParam (jsonRpcParams : params) : result string :=
  match jsonRpcParams with
  | Some (JObj entries) =>
      match obj_get "attachment_id" entries with
      | None => Throw (MissingAttachmentID jsonRpcParams)
      | Some attachmentID =>
          if negb (truthy attachmentID) || negb (isString attachmentID)
          then Throw (InvalidAttachmentID jsonRpcParams)
          else match attachmentID with
               | JStr s => Ok s
               | _ => Throw (InvalidAttachmentID jsonRpcParams)
               end
      end
  | _ => Throw (MissingAttachmentID jsonRpcParams)
  end.

Definition getRecipientIDParam (jsonRpcParams : params) : result string :=
  match jsonRpcParams with
  | Some (JObj entries) =>
      match obj_get "recipient_id" entries with
      | None => Throw (MissingRecipientID jsonRpcParams)
      | Some recipientID =>
          if negb (truthy recipientID) || negb (isString recipientID)
          then Throw (InvalidRecipientID jsonRpcParams)
          else match recipientID with
               | JStr s => Ok s
               | _ => Throw (InvalidRecipientID jsonRpcParams)
               end
      end
  | _ => Throw (MissingRecipientID jsonRpcParams)
  end.

(** No error exists for the sender amount: anything but a dictionary under
    the key reads as [undefined]. *)
Definition getSenderAmountParam (jsonRpcParams : params) : option json :=
  match jsonRpcParams with
  | Some (JObj entries) =>
      match obj_get "sender_amount" entries with
      | Some amount => if isDictionary (Some amount) then Some amount else None
      | None => None
      end
  | _ => None
  end.

Definition getTxidParam (jsonRpcParams : params) : result string :=
  match jsonRpcParams with
  | Some (JObj entries) =>
      match obj_get "txid" entries with
      | None => Throw (MissingTxid jsonRpcParams)
      | Some txid =>
          if negb (truthy txid) || negb (isString txid)
          then Throw (InvalidTxid jsonRpcParams)
          else match txid with
               | JStr s => Ok s
               | _ => Throw (InvalidTxid jsonRpcParams)
               end
      end
  | _ => Throw (MissingTxid jsonRpcParams)
  end.

(** The value is returned as it came ([vout as unknown as number]): a
    numeric string stays a string. *)
Definition getVoutParam `{JSRuntime} (jsonRpcParams : params) : result (option json) :=
  match jsonRpcParams with
  | Some (JObj entries) =>
      match obj_get "vout" entries with
      | Some vout =>
          match isNumber vout with
          | Throw e => Throw e
          | Ok accepted =>
              if negb accepted then Throw (InvalidVout jsonRpcParams)
              else Ok (Some vout)
          end
      | None => Ok None
      end
  | _ => Ok None
  end.

(** ** Persistent state

    The two tables of [app.db] as the lists of their rows (in insertion
    order), and the three directories under the data root as maps from file
    name to content. *)

Module ConsignmentDB.
Record t : Type := mk {
  recipient_id : string;
  filename : string;
  txid : string;
  vout : option json;
  ack : option Z;
  sender_amount : option string
}.
End ConsignmentDB.

Module Consignment.
Record t : Type := mk {
  recipientID : string;
  filename : string;
  txid : string;
  vout : option json;
  ack : option bool;
  sender_amount : option string
}.
End Consignment.

Module Media.
Record t : Type := mk {
  attachment_id : string;
  filename : string
}.
End Media.

(** The uploaded part as multer hands it over: the name it was staged under
    in [tempDir], and the bytes it wrote there. *)
Module File.
Record t : Type := mk {
  filename : string;
  content : list byte
}.
End File.

Module ConsignmentGetRes.
Record t : Type := mk {
  consignment : string;
  txid : string;
  vout : option json;
  sender_amount : option json
}.
End ConsignmentGetRes.

Module ServerInfo.
Record t : Type := mk {
  version : string;
  protocol_version : string;
  uptime : Z
}.
End ServerInfo.

Record state : Type := mkState {
  consignments : list ConsignmentDB.t;
  media : list Media.t;
  tempDir : gmap string (list byte);
  consignmentDir : gmap string (list byte);
  mediaDir : gmap string (list byte)
}.

Definition initial_state : state :=
  mkState [] [] ∅ ∅ ∅.

(** What the handlers take from outside this file: the digest computed by
    [util.genHashFromFile], the conversion SQLite applies to a value stored
    in the INTEGER column [vout], and the version constant. *)
Class Platform : Type := {
  genHash : list byte -> string;
  integer_affinity : json -> json;
  APP_VERSION : string
}.

Definition PROTOCOL_VERSION : string := "0.2".

(** ** Handlers run in a state-and-exception monad: a thrown error keeps
    the effects performed before it. *)

Definition M (A : Type) : Type := state -> result A * state.

Definition ret {A} (a : A) : M A := fun st => (Ok a, st).
Definition throw {A} (e : error) : M A := fun st => (Throw e, st).
Definition bind {A B} (m : M A) (k : A -> M B) : M B :=
  fun st =>
    match m st with
    | (Ok a, st') => k a st'
    | (Throw e, st') => (Throw e, st')
    end.
Definition lift {A} (r : result A) : M A := fun st => (r, st).
Definition try_catch {A} (body : M A) (handler : error -> M A) : M A :=
  fun st =>
    match body st with
    | (Ok a, st') => (Ok a, st')
    | (Throw e, st') => handler e st'
    end.

Notation "x <- m ;; k" := (bind m (fun x => k))
  (at level 100, m at next level, right associativity).
Notation "m ;;; k" := (bind m (fun _ => k))
  (at level 100, right associativity).

(** *** The file system calls used by the handlers *)

Inductive dir : Type := TempDir | ConsignmentDir | MediaDir.

Definition files (d : dir) (st : state) : gmap string (list byte) :=
  match d with
  | TempDir => tempDir st
  | ConsignmentDir => consignmentDir st
  | MediaDir => mediaDir st
  end.

Definition set_files (d : dir) (fs : gmap string (list byte)) (st : state) : state :=
  match d with
  | TempDir => mkState (consignments st) (media st) fs (consignmentDir st) (mediaDir st)
  | ConsignmentDir => mkState (consignments st) (media st) (tempDir st) fs (mediaDir st)
  | MediaDir => mkState (consignments st) (media st) (tempDir st) (consignmentDir st) fs
  end.

Definition dir_name (d : dir) : string :=
  match d with
  | TempDir => "tmp"
  | ConsignmentDir => "consignments"
  | MediaDir => "media"
  end.

Definition existsSync (d : dir) (name : string) : M bool :=
  fun st => (Ok (bool_decide (is_Some (files d st !! name))), st).

Definition readFileSync (d : dir) (name : string) : M (list byte) :=
  fun st =>
    match files d st !! name with
    | Some bytes => (Ok bytes, st)
    | None => (Throw (FsNoEntry (dir_name d) name), st)
    end.

Definition unlinkSync (d : dir) (name : string) : M unit :=
  fun st =>
    match files d st !! name with
    | Some _ => (Ok tt, set_files d (delete name (files d st)) st)
    | None => (Throw (FsNoEntry (dir_name d) name), st)
    end.

(** [fs.renameSync]: the source leaves its directory and replaces whatever
    the destination name held. *)
Definition renameSync (src : dir) (name : string) (dst : dir) (name' : string) : M unit :=
  fun st =>
    match files src st !! name with
    | Some bytes =>
        let st1 := set_files src (delete name (files src st)) st in
        (Ok tt, set_files dst (<[name' := bytes]> (files dst st1)) st1)
    | None => (Throw (FsNoEntry (dir_name src) name), st)
    end.

(** Modelled from the spec: [util.genHashFromFile] is not among the sources;
    the content store "computes a cryptographic content hash of the staged
    bytes", so it reads the file and returns the digest of its content. *)
Definition genHashFromFile `{Platform} (d : dir) (name : string) : M string :=
  bytes <- readFileSync d name ;;
  ret (genHash bytes).

(** *** The statements run against [app.db] *)

Definition set_consignments (rows : list ConsignmentDB.t) (st : state) : state :=
  mkState rows (media st) (tempDir st) (consignmentDir st) (mediaDir st).

Definition set_media (rows : list Media.t) (st : state) : state :=
  mkState (consignments st) rows (tempDir st) (consignmentDir st) (mediaDir st).

Definition has_recipient (recipientID : string) (row : ConsignmentDB.t) : bool :=
  String.eqb (ConsignmentDB.recipient_id row) recipientID.

Definition has_attachment (attachmentID : string) (row : Media.t) : bool :=
  String.eqb (Media.attachment_id row) attachmentID.

(** [SELECT * FROM consignments WHERE recipient_id = ?] with [.get]: the
    first matching row; [ack] is read with [Boolean(result.ack)]. *)
Definition select_consignment (recipientID : string)
    (rows : list ConsignmentDB.t) : option Consignment.t :=
  match List.find (has_recipient recipientID) rows with
  | Some result =>
      Some (Consignment.mk
              (ConsignmentDB.recipient_id result)
              (ConsignmentDB.filename result)
              (ConsignmentDB.txid result)
              (ConsignmentDB.vout result)
              (option_map (fun n => negb (n =? 0)%Z) (ConsignmentDB.ack result))
              (ConsignmentDB.sender_amount result))
  | None => None
  end.

Definition getConsignment (recipientID : string) : M (option Consignment.t) :=
  fun st => (Ok (select_consignment recipientID (consignments st)), st).

Definition getConsignmentOrFail (jsonRpcParams : params) : M Consignment.t :=
  recipientID <- lift (getRecipientIDParam jsonRpcParams) ;;
  consignment <- getConsignment recipientID ;;
  match consignment with
  | None => throw (NotFoundConsignment jsonRpcParams)
  | Some consignment => ret consignment
  end.

Definition getMedia (attachmentID : string) : M (option Media.t) :=
  fun st => (Ok (List.find (has_attachment attachmentID) (media st)), st).

(** The driver binds numbers, strings, [null] and [undefined] (as NULL).
    An array among the arguments of [run] is spread into positional
    parameters, so in the place of [vout] an array of exactly one such
    value binds that value; any other array leaves the statement with the
    wrong number of parameters.  A value that cannot be bound makes [run]
    throw before the statement executes. *)
Definition sqlite_scalar (v : json) : bool :=
  match v with
  | JNull | JNum _ | JStr _ => true
  | JBool _ | JArr _ | JObj _ => false
  end.

Definition sqlite_bindable (v : option json) : bool :=
  match v with
  | None => true
  | Some (JArr [item]) => sqlite_scalar item
  | Some (JArr _) => false
  | Some v => sqlite_scalar v
  end.

Definition stored_scalar `{Platform} (v : json) : option json :=
  match v with
  | JNull => None
  | v => Some (integer_affinity v)
  end.

Definition stored_vout `{Platform} (v : option json) : option json :=
  match v with
  | None => None
  | Some (JArr [item]) => stored_scalar item
  | Some v => stored_scalar v
  end.

(** [INSERT INTO consignments (recipient_id, filename, txid, vout, ack,
    sender_amount) VALUES (?, ?, ?, ?, ?, ?)]; [recipient_id] is UNIQUE. *)
Definition insert_consignment `{Platform}
    (recipientID fileHash txid : string) (vout : option json)
    (ack : option Z) (senderAmount : option string) : M unit :=
  fun st =>
    if negb (sqlite_bindable vout) then (Throw SqliteBindError, st)
    else if existsb (has_recipient recipientID) (consignments st)
    then (Throw SqliteConstraintUnique, st)
    else (Ok tt,
          set_consignments
            (consignments st ++
               [ConsignmentDB.mk recipientID fileHash txid (stored_vout vout)
                                 ack senderAmount]) st).

(** [INSERT INTO media (attachment_id, filename) VALUES (?, ?)];
    [attachment_id] is UNIQUE. *)
Definition insert_media (attachmentID fileHash : string) : M unit :=
  fun st =>
    if existsb (has_attachment attachmentID) (media st)
    then (Throw SqliteConstraintUnique, st)
    else (Ok tt, set_media (media st ++ [Media.mk attachmentID fileHash]) st).

Definition set_ack (ack : Z) (row : ConsignmentDB.t) : ConsignmentDB.t :=
  ConsignmentDB.mk (ConsignmentDB.recipient_id row) (ConsignmentDB.filename row)
                   (ConsignmentDB.txid row) (ConsignmentDB.vout row)
                   (Some ack) (ConsignmentDB.sender_amount row).

(** [UPDATE consignments SET ack = ? WHERE recipient_id = ?] *)
Definition update_ack (ack : Z) (recipientID : string) : M unit :=
  fun st =>
    (Ok tt,
     set_consignments
       (map (fun row => if has_recipient recipientID row then set_ack ack row else row)
            (consignments st)) st).

(** ** [Buffer.toString("base64")]: RFC 4648 with padding *)

Definition base64_char (n : N) : ascii :=
  if (n <? 26)%N then ascii_of_N (65 + n)
  else if (n <? 52)%N then ascii_of_N (97 + (n - 26))
  else if (n <? 62)%N then ascii_of_N (48 + (n - 52))
  else if (n =? 62)%N then "+"%char
  else "/"%char.

Definition base64_pad : ascii := "="%char.

Fixpoint base64_encode (bytes : list byte) : string :=
  match bytes with
  | [] => ""
  | [a] =>
      let a := Byte.to_N a in
      String (base64_char (a / 4))
        (String (base64_char ((a mod 4) * 16))
           (String base64_pad (String base64_pad "")))
  | [a; b] =>
      let a := Byte.to_N a in
      let b := Byte.to_N b in
      String (base64_char (a / 4))
        (String (base64_char ((a mod 4) * 16 + b / 16))
           (String (base64_char ((b mod 16) * 4)) (String base64_pad "")))
  | a :: b :: c :: rest =>
      let a := Byte.to_N a in
      let b := Byte.to_N b in
      let c := Byte.to_N c in
      String (base64_char (a / 4))
        (String (base64_char ((a mod 4) * 16 + b / 16))
           (String (base64_char ((b mod 16) * 4 + c / 64))
              (String (base64_char (c mod 64)) (base64_encode rest))))
  end.

(** The reader's side: the inverse alphabet and the decoding of a padded
    text, failing on anything that is not one. *)
Definition base64_value (c : ascii) : option N :=
  let n := N_of_ascii c in
  if (65 <=? n)%N && (n <=? 90)%N then Some (n - 65)%N
  else if (97 <=? n)%N && (n <=? 122)%N then Some (n - 97 + 26)%N
  else if (48 <=? n)%N && (n <=? 57)%N then Some (n - 48 + 52)%N
  else if (n =? 43)%N then Some 62%N
  else if (n =? 47)%N then Some 63%N
  else None.

Definition base64_group (c1 c2 c3 c4 : ascii) : option (list byte) :=
  match base64_value c1, base64_value c2 with
  | Some s1, Some s2 =>
      match Byte.of_N (s1 * 4 + s2 / 16) with
      | None => None
      | Some a =>
          if Ascii.eqb c3 base64_pad then
            if Ascii.eqb c4 base64_pad then Some [a] else None
          else
            match base64_value c3 with
            | None => None
            | Some s3 =>
                match Byte.of_N ((s2 mod 16) * 16 + s3 / 4) with
                | None => None
                | Some b =>
                    if Ascii.eqb c4 base64_pad then Some [a; b]
                    else
                      match base64_value c4 with
                      | None => None
                      | Some s4 =>
                          match Byte.of_N ((s3 mod 4) * 64 + s4) with
                          | None => None
                          | Some c => Some [a; b; c]
                          end
                      end
                end
            end
      end
  | _, _ => None
  end.

Fixpoint base64_decode (text : string) : option (list byte) :=
  match text with
  | "" => Some []
  | String c1 (String c2 (String c3 (String c4 rest))) =>
      match base64_group c1 c2 c3 c4 with
      | None => None
      | Some bytes =>
          if Nat.eqb (List.length bytes) 3 then
            match base64_decode rest with
            | None => None
            | Some more => Some (bytes ++ more)%list
            end
          else
            match rest with
            | "" => Some bytes
            | _ => None
            end
      end
  | _ => None
  end.

(** ** The methods of the JSON-RPC server (api.ts, lines 265-416) *)

Inductive rpc_value : Type :=
  | VInfo (info : ServerInfo.t)
  | VConsignment (res : ConsignmentGetRes.t)
  | VString (s : string)
  | VBool (b : bool)
  | VAck (ack : option bool).

(** One inbound call with a well-formed JSON-RPC envelope: the method
    name, the [params] member of the body, the file part (if any) as multer
    named it, and the uptime read if the method asks for it. *)
Record request : Type := mkRequest {
  rpc_method : string;
  rpc_params : params;
  req_file : option File.t;
  req_uptime : Z
}.

Section Handlers.
Context `{JSRuntime} `{Platform}.

(** [uptime] is [Math.trunc(process.uptime())] at the time of the call. *)
Definition server_info (uptime : Z) : M ServerInfo.t :=
  ret (ServerInfo.mk APP_VERSION PROTOCOL_VERSION uptime).

Definition consignment_get (jsonRpcParams : params) : M ConsignmentGetRes.t :=
  consignment <- getConsignmentOrFail jsonRpcParams ;;
  fileBuffer <- readFileSync ConsignmentDir (Consignment.filename consignment) ;;
  senderAmount <-
    match Consignment.sender_amount consignment with
    | Some text =>
        if truthy (JStr text) then
          match JSON_parse text with
          | Some v => ret (Some v)
          | None => throw JsonSyntaxError
          end
        else ret None
    | None => ret None
    end ;;
  ret (ConsignmentGetRes.mk (base64_encode fileBuffer)
                            (Consignment.txid consignment)
                            (Consignment.vout consignment)
                            senderAmount).

(** The [catch] block shared by the two upload methods: remove the staged
    file if it is still there, then rethrow. *)
Definition discard_upload {A} (file : option File.t) (e : error) : M A :=
  match file with
  | Some file =>
      let unhandledFile := File.filename file in
      present <- existsSync TempDir unhandledFile ;;
      (if present : bool then unlinkSync TempDir unhandledFile else ret tt) ;;;
      throw e
  | None => throw e
  end.

Definition consignment_post (jsonRpcParams : params) (file : option File.t) : M bool :=
  match file with
  | None => throw (MissingFile jsonRpcParams)
  | Some file' =>
      try_catch
        (recipientID <- lift (getRecipientIDParam jsonRpcParams) ;;
         txid <- lift (getTxidParam jsonRpcParams) ;;
         vout <- lift (getVoutParam jsonRpcParams) ;;
         let senderAmount := getSenderAmountParam jsonRpcParams in
         let uploadedFile := File.filename file' in
         fileHash <- genHashFromFile TempDir uploadedFile ;;
         prevFile <- getConsignment recipientID ;;
         match prevFile with
         | Some prevFile =>
             if String.eqb (Consignment.filename prevFile) fileHash then
               unlinkSync TempDir (File.filename file') ;;;
               ret false
             else throw (CannotChangeUploadedFile jsonRpcParams)
         | None =>
             renameSync TempDir uploadedFile ConsignmentDir fileHash ;;;
             insert_consignment recipientID fileHash txid vout None
               (option_map JSON_stringify senderAmount) ;;;
             ret true
         end)
        (discard_upload file)
  end.

Definition media_get (jsonRpcParams : params) : M string :=
  attachmentID <- lift (getAttachmentIDParam jsonRpcParams) ;;
  media <- getMedia attachmentID ;;
  match media with
  | None => throw (NotFoundMedia jsonRpcParams)
  | Some media =>
      fileBuffer <- readFileSync MediaDir (Media.filename media) ;;
      ret (base64_encode fileBuffer)
  end.

Definition media_post (jsonRpcParams : params) (file : option File.t) : M bool :=
  try_catch
    (attachmentID <- lift (getAttachmentIDParam jsonRpcParams) ;;
     match file with
     | None => throw (MissingFile jsonRpcParams)
     | Some file' =>
         let uploadedFile := File.filename file' in
         fileHash <- genHashFromFile TempDir uploadedFile ;;
         prevFile <- getMedia attachmentID ;;
         match prevFile with
         | Some prevFile =>
             if String.eqb (Media.filename prevFile) fileHash then
               unlinkSync TempDir (File.filename file') ;;;
               ret false
             else throw (CannotChangeUploadedFile jsonRpcParams)
         | None =>
             renameSync TempDir uploadedFile MediaDir fileHash ;;;
             insert_media attachmentID fileHash ;;;
             ret true
         end
     end)
    (discard_upload file).

Definition ack_get (jsonRpcParams : params) : M (option bool) :=
  consignment <- getConsignmentOrFail jsonRpcParams ;;
  ret (Consignment.ack consignment).

Definition ack_post (jsonRpcParams : params) : M bool :=
  consignment <- getConsignmentOrFail jsonRpcParams ;;
  ack <- lift (getAckParam jsonRpcParams) ;;
  match Consignment.ack consignment with
  | Some stored =>
      if Bool.eqb stored ack then ret false
      else throw (CannotChangeAck jsonRpcParams)
  | None =>
      update_ack (if ack then 1 else 0)%Z (Consignment.recipientID consignment) ;;;
      ret true
  end.

(** ** The endpoint [POST /json-rpc] (api.ts, lines 458-517) *)

(** [upload.single("file")]: the part is written under [tempDir] before
    the handler runs. *)
Definition stage (file : option File.t) (st : state) : state :=
  match file with
  | Some f => set_files TempDir (<[File.filename f := File.content f]> (tempDir st)) st
  | None => st
  end.

Definition fmap_M {A B} (f : A -> B) (m : M A) : M B :=
  a <- m ;; ret (f a).

(** [jsonRpcServer.receive]: the table of methods. *)
Definition receive (name : string) (jsonRpcParams : params)
    (file : option File.t) (uptime : Z) : M rpc_value :=
  if String.eqb name "server.info" then fmap_M VInfo (server_info uptime)
  else if String.eqb name "consignment.get" then
    fmap_M VConsignment (consignment_get jsonRpcParams)
  else if String.eqb name "consignment.post" then
    fmap_M VBool (consignment_post jsonRpcParams file)
  else if String.eqb name "media.get" then fmap_M VString (media_get jsonRpcParams)
  else if String.eqb name "media.post" then
    fmap_M VBool (media_post jsonRpcParams file)
  else if String.eqb name "ack.get" then fmap_M VAck (ack_get jsonRpcParams)
  else if String.eqb name "ack.post" then fmap_M VBool (ack_post jsonRpcParams)
  else throw (MethodNotFound name).

(** The cleanup after the response: a staged file nobody consumed is
    deleted. *)
Definition delete_unhandled (file : option File.t) (st : state) : state :=
  match file with
  | Some f =>
      if bool_decide (is_Some (tempDir st !! File.filename f))
      then set_files TempDir (delete (File.filename f) (tempDir st)) st
      else st
  | None => st
  end.

(** A string under [params] is parsed first: [None] when [JSON.parse]
    throws. *)
Definition parse_params (p : params) : option params :=
  match p with
  | Some (JStr text) => option_map Some (JSON_parse text)
  | other => Some other
  end.

(** The callback logs the parameters before it dispatches the call and the
    response before it sends it, both through template literals.  A
    dictionary is printed by [JSON.stringify] and a string by
    [truncateText]; of the other values only an array can make the
    template literal throw. *)
Definition prints (v : json) : bool :=
  match v with
  | JArr items => negb (Array_toString_throws items)
  | _ => true
  end.

Definition joinEntries_returns (entries : list (string * json)) : bool :=
  forallb (fun entry => prints (snd entry)) entries.

(** [if (isDictionary(params)) reqParams = joinEntries(params)] *)
Definition logs_params (p : params) : bool :=
  match p with
  | Some (JObj entries) => joinEntries_returns entries
  | _ => true
  end.

(** The line logged for the response: [joinEntries(result)] when the result
    is a dictionary (the members of a [ConsignmentGetRes] that are not
    strings are [vout] and [sender_amount]). *)
Definition logs_response (response : result rpc_value) : bool :=
  match response with
  | Ok (VConsignment res) =>
      match ConsignmentGetRes.vout res with Some v => prints v | None => true end &&
      match ConsignmentGetRes.sender_amount res with Some v => prints v | None => true end
  | _ => true
  end.

(** Nothing catches what the callback itself throws: when [JSON.parse] or
    the logging of the parameters throws, [receive] is never reached, and
    when the logging of the response throws, the response is not sent and
    the cleanup that follows it does not run; in each case nothing is
    answered ([None]). *)
Definition handle_request (req : request) (st : state)
    : option (result rpc_value) * state :=
  let st0 := stage (req_file req) st in
  match parse_params (rpc_params req) with
  | None => (None, st0)
  | Some jsonRpcParams =>
      if negb (logs_params jsonRpcParams) then (None, st0)
      else
        let '(response, st1) :=
          receive (rpc_method req) jsonRpcParams (req_file req) (req_uptime req) st0 in
        if negb (logs_response response) then (None, st1)
        else (Some response, delete_unhandled (req_file req) st1)
  end.

(** The state after a sequence of calls. *)
Fixpoint run (reqs : list request) (st : state) : state :=
  match reqs with
  | [] => st
  | req :: rest => run rest (snd (handle_request req st))
  end.

End Handlers.

(** ** Auxiliary definitions for the statements *)

Definition unstage (name : string) (st : state) : state :=
  set_files TempDir (delete name (tempDir st)) st.

Definition store (d : dir) (name : string) (bytes : list byte) (st : state) : state :=
  set_files d (<[name := bytes]> (files d st)) st.

Section Auxiliary.
Context `{JSRuntime} `{Platform}.

(** The three extractions at the head of [consignment.post], in order. *)
Definition consignment_post_params (p : params) : result (string * string * option json) :=
  match getRecipientIDParam p with
  | Throw e => Throw e
  | Ok recipientID =>
      match getTxidParam p with
      | Throw e => Throw e
      | Ok txid =>
          match getVoutParam p with
          | Throw e => Throw e
          | Ok vout => Ok (recipientID, txid, vout)
          end
      end
  end.

Definition new_row (p : params) (recipientID fileHash txid : string) (vout : option json)
    : ConsignmentDB.t :=
  ConsignmentDB.mk recipientID fileHash txid (stored_vout vout) None
    (option_map JSON_stringify (getSenderAmountParam p)).

End Auxiliary.

(** The acknowledgment state of a recipient: [None] while no record exists,
    then unset ([Some None]) or settled. *)
Definition ack_state (recipientID : string) (st : state) : option (option bool) :=
  option_map Consignment.ack (select_consignment recipientID (consignments st)).

(** The rows a recipient has in the table. *)
Definition records_of (recipientID : string) (st : state) : list ConsignmentDB.t :=
  List.filter (has_recipient recipientID) (consignments st).

(** A directory is content-addressed when every file is named by the digest
    of its bytes. *)
Definition content_addressed `{Platform} (fs : gmap string (list byte)) : Prop :=
  forall name bytes, fs !! name = Some bytes -> name = genHash bytes.

(** ** A concrete instance, to evaluate the handlers on examples

    The properties below hold for every runtime and platform; these
    stand-ins only serve to run the handlers on sample requests, and the
    samples stay within what they cover: decimal numerals, arrays of
    strings, plain objects, and JSON texts without members. *)

Fixpoint decimal_numeral (s : string) (acc : N) : option N :=
  match s with
  | "" => Some acc
  | String c rest =>
      let n := N_of_ascii c in
      if (48 <=? n)%N && (n <=? 57)%N
      then decimal_numeral rest (acc * 10 + (n - 48))%N
      else None
  end.

Definition double_of_N (n : N) : spec_float :=
  match n with
  | N0 => S754_zero false
  | Npos m => S754_finite false m 0
  end.

(** [m * 2^e] for a natural [m]. *)
Definition double_of_scaled (m : N) (e : Z) : spec_float :=
  match m with
  | N0 => S754_zero false
  | Npos p => S754_finite false p e
  end.

(** [fraction / 10^places] in units of [2^-64], rounded down; the last
    binary place is set when the division left a remainder. *)
Definition scaled_fraction (fraction : N) (places : nat) : N :=
  let numerator := (fraction * 2 ^ 64)%N in
  let denominator := (10 ^ N.of_nat places)%N in
  let q := (numerator / denominator)%N in
  if (numerator mod denominator =? 0)%N then q else (2 * (q / 2) + 1)%N.

(** The numerals the examples need: a run of digits is the integer it
    spells; digits around a point are that integer when the fraction is
    zero, and else the value to 64 binary places; any other text is [NaN]. *)
Definition example_StringToNumber (s : string) : spec_float :=
  match decimal_numeral s 0 with
  | Some n => double_of_N n
  | None =>
      match numeral_parts s with
      | Some (whole, fraction) =>
          match decimal_numeral whole 0, decimal_numeral fraction 0 with
          | Some w, Some f =>
              if all_zeros fraction then double_of_N w
              else double_of_scaled
                     (w * 2 ^ 64 + scaled_fraction f (String.length fraction)) (-64)
          | _, _ => S754_nan
          end
      | None => S754_nan
      end
  end.

Definition example_ObjectToNumber (v : json) : result spec_float :=
  match v with
  | JArr items =>
      Ok (example_StringToNumber
            (String.concat ","
               (map (fun v => match v with JStr s => s | _ => "" end) items)))
  | _ => Ok S754_nan
  end.

Definition example_JSON_stringify (v : json) : string :=
  match v with
  | JBool true => "true"
  | JBool false => "false"
  | JArr [] => "[]"
  | JObj [] => "{}"
  | _ => "null"
  end.

Definition example_JSON_parse (text : string) : option json :=
  if String.eqb text "{}" then Some (JObj [])
  else if String.eqb text "[]" then Some (JArr [])
  else if String.eqb text "true" then Some (JBool true)
  else if String.eqb text "false" then Some (JBool false)
  else if String.eqb text "null" then Some JNull
  else None.

(** Printing an array throws when it reaches an object with a member named
    [toString] (no member of a parsed object is a function). *)
Fixpoint example_toString_throws (v : json) : bool :=
  match v with
  | JArr items =>
      (fix any (l : list json) : bool :=
         match l with
         | [] => false
         | item :: rest => example_toString_throws item || any rest
         end) items
  | JObj entries =>
      match obj_get "toString" entries with
      | Some _ => true
      | None => false
      end
  | _ => false
  end.

Definition example_runtime : JSRuntime :=
  {| StringToNumber := example_StringToNumber;
     ObjectToNumber := example_ObjectToNumber;
     JSON_stringify := example_JSON_stringify;
     JSON_parse := example_JSON_parse;
     Array_toString_throws := fun items => example_toString_throws (JArr items) |}.

Definition example_integer_affinity (v : json) : json :=
  match v with
  | JStr s =>
      if String.eqb s "" then v
      else match decimal_numeral s 0 with
           | Some n => JNum (double_of_N n)
           | None => v
           end
  | _ => v
  end.

(** The digest is a stand-in too: an injective text for the bytes. *)
Definition example_platform : Platform :=
  {| genHash := base64_encode;
     integer_affinity := example_integer_affinity;
     APP_VERSION := "0.0.0" |}.

(** The bytes of a text, and sample requests: the walk-through of the
    README with the payload "X". *)
Definition bytes_of_string (s : string) : list byte :=
  map byte_of_ascii (list_ascii_of_string s).

Definition sample_params : params :=
  Some (JObj [("recipient_id", JStr "blindTest"); ("txid", JStr "t1")]).

Definition sample_file : File.t := File.mk "upload-1" (bytes_of_string "X").

Definition sample_media_params : params :=
  Some (JObj [("attachment_id", JStr "att1")]).

Definition sample_post : request :=
  mkRequest "consignment.post" sample_params (Some sample_file) 0.

(** The sample post with a [params] that [JSON.parse] rejects, and with a
    member that the logging of the parameters cannot print. *)
Definition unparsable_post : request :=
  mkRequest "consignment.post" (Some (JStr "{recipient_id")) (Some sample_file) 0.

Definition unprintable_post : request :=
  mkRequest "consignment.post"
    (Some (JObj [("recipient_id", JStr "blindTest"); ("txid", JStr "t1");
                 ("x", JArr [JObj [("toString", JNum (S754_zero false))]])]))
    (Some sample_file) 0.

Definition sample_ack_params (v : bool) : params :=
  Some (JObj [("recipient_id", JStr "blindTest"); ("ack", JBool v)]).

(** The state once the sample consignment has been posted. *)
Definition sample_posted : state :=
  @run example_runtime example_platform [sample_post] initial_state.

Definition sample_record : Consignment.t :=
  Consignment.mk "blindTest" (base64_encode (bytes_of_string "X")) "t1" None None None.

(** The same payload staged under another name, and a different payload. *)
Definition sample_file_again : File.t := File.mk "upload-2" (bytes_of_string "X").
Definition other_file : File.t := File.mk "upload-3" (bytes_of_string "Y").

Definition sample_media_post : request :=
  mkRequest "media.post" sample_media_params (Some sample_file) 0.

(** The state once the sample consignment and the sample attachment have
    both been posted. *)
Definition sample_store : state :=
  @run example_runtime example_platform [sample_post; sample_media_post] initial_state.

(** ** How one call may change the store

    The consignment table either stays, gains one row for a recipient that
    had none (with the flag unset), or has the unset flag of one recipient
    settled; a permanent directory either stays or receives the call's file
    under the digest of its bytes. *)

Definition settle (recipientID : string) (v : bool) (rows : list ConsignmentDB.t)
    : list ConsignmentDB.t :=
  map (fun row => if has_recipient recipientID row
                  then set_ack (if v then 1 else 0)%Z row else row) rows.

Inductive table_step (name : string) (rows : list ConsignmentDB.t)
    : list ConsignmentDB.t -> Prop :=
  | table_same : table_step name rows rows
  | table_insert (row : ConsignmentDB.t) :
      name = "consignment.post" ->
      select_consignment (ConsignmentDB.recipient_id row) rows = None ->
      ConsignmentDB.ack row = None ->
      table_step name rows (rows ++ [row])
  | table_settle (recipientID : string) (c : Consignment.t) (v : bool) :
      name = "ack.post" ->
      select_consignment recipientID rows = Some c ->
      Consignment.ack c = None ->
      table_step name rows (settle recipientID v rows).

Inductive dir_step `{Platform} (file : option File.t) (fs : gmap string (list byte))
    : gmap string (list byte) -> Prop :=
  | dir_same : dir_step file fs fs
  | dir_store (f : File.t) :
      file = Some f ->
      dir_step file fs (<[genHash (File.content f) := File.content f]> fs).

(** Whether a call changed the flag of a recipient that had a record. *)
Definition ack_written (recipientID : string) (st st' : state) : bool :=
  match ack_state recipientID st, ack_state recipientID st' with
  | Some a, Some a' => negb (bool_decide (a = a'))
  | _, _ => false
  end.

Fixpoint ack_writes `{JSRuntime} `{Platform}
    (recipientID : string) (reqs : list request) (st : state) : nat :=
  match reqs with
  | [] => 0
  | req :: rest =>
      let st' := snd (handle_request req st) in
      (if ack_written recipientID st st' then 1 else 0)
      + ack_writes recipientID rest st'
  end.

Definition sample_ack_post (v : bool) : request :=
  mkRequest "ack.post" (sample_ack_params v) None 0.

Definition sample_ack_get : request :=
  mkRequest "ack.get" sample_params None 0.

Definition sample_get : request :=
  mkRequest "consignment.get" sample_params None 0.

(** The sample consignment, posted and then acknowledged. *)
Definition sample_acked : state :=
  @run example_runtime example_platform [sample_post; sample_ack_post true] initial_state.

Definition sample_nacked : state :=
  @run example_runtime example_platform [sample_post; sample_ack_post false] initial_state.

(** The store holds a consignment for [recipientID]: a record with these
    columns, named by the digest of [bytes], and the file itself. *)
Definition holds_consignment `{Platform} (recipientID : string) (bytes : list byte)
    (txid : string) (vout : option json) (senderAmount : option string)
    (st : state) : Prop :=
  exists c,
    select_consignment recipientID (consignments st) = Some c /\
    Consignment.filename c = genHash bytes /\
    Consignment.txid c = txid /\
    Consignment.vout c = vout /\
    Consignment.sender_amount c = senderAmount /\
    consignmentDir st !! genHash bytes = Some bytes.

(** A call whose file, if it has the digest of [bytes], is [bytes]. *)
Definition no_collision `{Platform} (bytes : list byte) (req : request) : Prop :=
  forall g, req_file req = Some g ->
            genHash (File.content g) = genHash bytes -> File.content g = bytes.

(** A post as a multipart form sends it: the vout is a numeral in a string;
    the sender amount is an object. *)
Definition full_params : params :=
  Some (JObj [("recipient_id", JStr "blindTest"); ("txid", JStr "t1");
              ("vout", JStr "1"); ("sender_amount", JObj [])]).

Definition other_media_post : request :=
  mkRequest "media.post" sample_media_params (Some other_file) 0.

(** The media table only ever grows by one row at its end. *)
Definition media_step (rows rows' : list Media.t) : Prop :=
  rows' = rows \/ exists m, rows' = (rows ++ [m])%list.

#[global] Instance byte_eq_decision : EqDecision byte := Byte.byte_eq_dec.

(** How many files of a directory hold exactly [bytes]; and over the two
    permanent directories together. *)
Definition copies (bytes : list byte) (fs : gmap string (list byte)) : nat :=
  size (filter (fun entry : string * list byte => entry.2 = bytes) fs).

Definition permanent_copies (bytes : list byte) (st : state) : nat :=
  copies bytes (consignmentDir st) + copies bytes (mediaDir st).

Definition second_params : params :=
  Some (JObj [("recipient_id", JStr "blindTest2"); ("txid", JStr "t2")]).

Definition second_media_params : params :=
  Some (JObj [("attachment_id", JStr "att2")]).

(** ** The contract of the extractors

    The member of the container under a key, when the container is a
    dictionary and has the key; the shapes asked of the values; and the
    contract of a required field: [missing] without the member, [invalid]
    with a member of the wrong shape, else the typed value. *)

Definition field (key : string) (p : params) : option json :=
  match p with
  | Some (JObj entries) => obj_get key entries
  | _ => None
  end.

Definition nonempty_string (v : json) : option string :=
  match v with
  | JStr s => if String.eqb s "" then None else Some s
  | _ => None
  end.

Definition boolean (v : json) : option bool :=
  match v with
  | JBool b => Some b
  | _ => None
  end.

Definition dictionary (v : json) : option json :=
  match v with
  | JObj entries => Some (JObj entries)
  | _ => None
  end.

Definition required_field {A} (key : string) (missing invalid : params -> error)
    (shape : json -> option A) (p : params) : result A :=
  match field key p with
  | None => Throw (missing p)
  | Some v =>
      match shape v with
      | Some a => Ok a
      | None => Throw (invalid p)
      end
  end.

Definition bad_amount_params : params :=
  Some (JObj [("recipient_id", JStr "blindTest"); ("sender_amount", JStr "abc")]).

(** Parameters whose [vout] is the given value. *)
Definition vout_params (vout : json) : params :=
  Some (JObj [("recipient_id", JStr "blindTest"); ("txid", JStr "t1"); ("vout", vout)]).

(** The answers along a sequence of calls. *)
Fixpoint replies `{JSRuntime} `{Platform} (reqs : list request) (st : state)
    : list (option (result rpc_value)) :=
  match reqs with
  | [] => []
  | req :: rest =>
      fst (handle_request req st) :: replies rest (snd (handle_request req st))
  end.

(** ** Log formatting (api.ts, lines 116-120 and 239-256) *)

(** [truncateText(content, limit = 16)]; a string is the sequence of its
    code units. *)
Definition DEFAULT_LIMIT : nat := 16.

Definition truncateText (content : string) (limit : nat) : string :=
  if negb (truthy (JStr content)) then ""
  else if Nat.leb (String.length content) limit then content
  else String.substring 0 limit content ++ "...".

(** The conversion a template literal applies to a value that is neither a
    string nor a dictionary: a part of the runtime, like the JSON printer. *)
Class JSPrinting : Type := {
  ToString : json -> string
}.




Definition example_printing : JSPrinting :=
  {| ToString := fun v =>
       match v with
       | JNull => "null"
       | JBool true => "true"
       | JBool false => "false"
       | JStr s => s
       | _ => ""
       end |}.

(** ** What one answered call may do to the tables and the permanent
    directories, in full *)

Definition same_store (st st' : state) : Prop :=
  consignments st' = consignments st /\
  media st' = media st /\
  consignmentDir st' = consignmentDir st /\
  mediaDir st' = mediaDir st.

Inductive store_step `{Platform} (req : request) (st st' : state) : Prop :=
  | step_nothing :
      same_store st st' ->
      store_step req st st'
  | step_consignment (f : File.t) (row : ConsignmentDB.t) :
      rpc_method req = "consignment.post" ->
      req_file req = Some f ->
      select_consignment (ConsignmentDB.recipient_id row) (consignments st) = None ->
      ConsignmentDB.ack row = None ->
      ConsignmentDB.filename row = genHash (File.content f) ->
      consignments st' = (consignments st ++ [row])%list ->
      consignmentDir st' = <[genHash (File.content f) := File.content f]> (consignmentDir st) ->
      media st' = media st ->
      mediaDir st' = mediaDir st ->
      store_step req st st'
  | step_file_only (f : File.t) :
      rpc_method req = "consignment.post" ->
      req_file req = Some f ->
      consignments st' = consignments st ->
      consignmentDir st' = <[genHash (File.content f) := File.content f]> (consignmentDir st) ->
      media st' = media st ->
      mediaDir st' = mediaDir st ->
      store_step req st st'
  | step_media (f : File.t) (m : Media.t) :
      rpc_method req = "media.post" ->
      req_file req = Some f ->
      List.find (has_attachment (Media.attachment_id m)) (media st) = None ->
      Media.filename m = genHash (File.content f) ->
      media st' = (media st ++ [m])%list ->
      mediaDir st' = <[genHash (File.content f) := File.content f]> (mediaDir st) ->
      consignments st' = consignments st ->
      consignmentDir st' = consignmentDir st ->
      store_step req st st'
  | step_ack (recipientID : string) (c : Consignment.t) (v : bool) :
      rpc_method req = "ack.post" ->
      select_consignment recipientID (consignments st) = Some c ->
      Consignment.ack c = None ->
      consignments st' = settle recipientID v (consignments st) ->
      media st' = media st ->
      consignmentDir st' = consignmentDir st ->
      mediaDir st' = mediaDir st ->
      store_step req st st'.

(** Every row names a file that is in its directory. *)
Definition files_present (st : state) : Prop :=
  Forall (fun row => is_Some (consignmentDir st !! ConsignmentDB.filename row))
         (consignments st) /\
  Forall (fun m => is_Some (mediaDir st !! Media.filename m)) (media st).

(** The store holds an attachment: a row named by the digest of [bytes],
    and the file itself. *)
Definition holds_media `{Platform} (attachmentID : string) (bytes : list byte)
    (st : state) : Prop :=
  List.find (has_attachment attachmentID) (media st)
  = Some (Media.mk attachmentID (genHash bytes)) /\
  mediaDir st !! genHash bytes = Some bytes.

(** The temp directory once a call that carried [file] has been answered. *)
Definition tempDir_after (file : option File.t) (st : state) : gmap string (list byte) :=
  match file with
  | Some f => delete (File.filename f) (tempDir st)
  | None => tempDir st
  end.

Definition sample_media_get : request :=
  mkRequest "media.get" sample_media_params None 0.

Definition sample_info : request :=
  mkRequest "server.info" None None 42.

Definition boolean_vout_params : params :=
  Some (JObj [("recipient_id", JStr "blindTest"); ("txid", JStr "t1");
              ("vout", JBool true)]).

(** The values the [ack] column takes: NULL, 0 or 1. *)
Definition ack_column_ok (row : ConsignmentDB.t) : Prop :=
  ConsignmentDB.ack row = None \/
  ConsignmentDB.ack row = Some 0%Z \/
  ConsignmentDB.ack row = Some 1%Z.

(** ** Properties *)

Ltac unfold_M :=
  unfold bind, ret, throw, lift, try_catch, fmap_M in *.

(** *** First match in a list that grows at its end *)

Lemma find_app_none {A} (f : A -> bool) (l l' : list A) :
  List.find f l = None -> List.find f (l ++ l') = List.find f l'.
Proof.
  induction l as [|a l IH]; simpl; [reflexivity|].
  destruct (f a); [discriminate|exact IH].
Qed.

Lemma find_app_some {A} (f : A -> bool) (l l' : list A) (a : A) :
  List.find f l = Some a -> List.find f (l ++ l') = Some a.
Proof.
  induction l as [|b l IH]; simpl; [discriminate|].
  destruct (f b); [trivial|exact IH].
Qed.

Section HandlerFacts.
Context `{JSRuntime} `{Platform}.

(** *** Looking a consignment up *)

Lemma getConsignmentOrFail_found (p : params) (rid : string) (c : Consignment.t) (st : state) :
  getRecipientIDParam p = Ok rid ->
  select_consignment rid (consignments st) = Some c ->
  getConsignmentOrFail p st = (Ok c, st).
Proof.
  intros Hrid Hsel. unfold getConsignmentOrFail, getConsignment. unfold_M.
  now rewrite Hrid, Hsel.
Qed.

Lemma getConsignmentOrFail_unknown (p : params) (rid : string) (st : state) :
  getRecipientIDParam p = Ok rid ->
  select_consignment rid (consignments st) = None ->
  getConsignmentOrFail p st = (Throw (NotFoundConsignment p), st).
Proof.
  intros Hrid Hsel. unfold getConsignmentOrFail, getConsignment. unfold_M.
  now rewrite Hrid, Hsel.
Qed.

Lemma select_consignment_recipient (rid : string) (rows : list ConsignmentDB.t) (c : Consignment.t) :
  select_consignment rid rows = Some c -> Consignment.recipientID c = rid.
Proof.
  unfold select_consignment. destruct (List.find _ rows) as [row|] eqn:Hfind; [|discriminate].
  intros [= <-]. simpl. apply List.find_some in Hfind as [_ Heq].
  unfold has_recipient in Heq. now apply String.eqb_eq in Heq.
Qed.

(** Reading back after [UPDATE consignments SET ack = ?]: the selected row
    carries the new flag and is otherwise the same. *)
Lemma select_after_update (rid : string) (n : Z) (rows : list ConsignmentDB.t) (c : Consignment.t) :
  select_consignment rid rows = Some c ->
  select_consignment rid
    (map (fun row => if has_recipient rid row then set_ack n row else row) rows)
  = Some (Consignment.mk (Consignment.recipientID c) (Consignment.filename c)
            (Consignment.txid c) (Consignment.vout c)
            (Some (negb (n =? 0)%Z)) (Consignment.sender_amount c)).
Proof.
  unfold select_consignment. induction rows as [|row rows IH]; simpl; [discriminate|].
  destruct (has_recipient rid row) eqn:Hrow.
  - intros [= <-]. simpl. unfold has_recipient in *. simpl. now rewrite Hrow.
  - rewrite Hrow. exact IH.
Qed.

(** The update leaves the rows of every other recipient as they were. *)
Lemma select_after_update_other (rid rid' : string) (n : Z) (rows : list ConsignmentDB.t) :
  rid' <> rid ->
  select_consignment rid'
    (map (fun row => if has_recipient rid row then set_ack n row else row) rows)
  = select_consignment rid' rows.
Proof.
  intros Hne. unfold select_consignment. induction rows as [|row rows IH]; simpl; [reflexivity|].
  destruct (has_recipient rid row) eqn:Hrow.
  - unfold has_recipient in *. simpl.
    apply String.eqb_eq in Hrow.
    destruct (String.eqb_spec (ConsignmentDB.recipient_id row) rid') as [Heq|Hneq]; [congruence|].
    exact IH.
  - destruct (has_recipient rid' row); [reflexivity|exact IH].
Qed.

End HandlerFacts.

(** *** The upload methods, case by case

    With the upload staged, [consignment.post] and [media.post] each end in
    one of a handful of states; the lemmas below resolve the [try]/[catch]
    once and for all. *)

Section UploadCases.
Context `{JSRuntime} `{Platform}.

Lemma select_none_existsb (rid : string) (rows : list ConsignmentDB.t) :
  select_consignment rid rows = None -> existsb (has_recipient rid) rows = false.
Proof.
  unfold select_consignment. induction rows as [|row rows IH]; simpl; [reflexivity|].
  destruct (has_recipient rid row); [discriminate|exact IH].
Qed.

Lemma find_none_existsb {A} (f : A -> bool) (l : list A) :
  List.find f l = None -> existsb f l = false.
Proof.
  induction l as [|a l IH]; simpl; [reflexivity|].
  destruct (f a); [discriminate|exact IH].
Qed.

Lemma consignment_post_staged (p : params) (f : File.t) (bytes : list byte) (st : state) :
  tempDir st !! File.filename f = Some bytes ->
  consignment_post p (Some f) st =
    match consignment_post_params p with
    | Throw e => (Throw e, unstage (File.filename f) st)
    | Ok (recipientID, txid, vout) =>
        match select_consignment recipientID (consignments st) with
        | Some prevFile =>
            if String.eqb (Consignment.filename prevFile) (genHash bytes)
            then (Ok false, unstage (File.filename f) st)
            else (Throw (CannotChangeUploadedFile p), unstage (File.filename f) st)
        | None =>
            let st1 := store ConsignmentDir (genHash bytes) bytes
                         (unstage (File.filename f) st) in
            if sqlite_bindable vout
            then (Ok true,
                  set_consignments
                    (consignments st ++
                       [new_row p recipientID (genHash bytes) txid vout]) st1)
            else (Throw SqliteBindError, st1)
        end
    end.
Proof.
  intros Hstaged.
  unfold consignment_post, consignment_post_params, discard_upload, genHashFromFile,
    getConsignment, readFileSync, existsSync, unlinkSync, renameSync, insert_consignment.
  unfold_M. simpl.
  destruct (getRecipientIDParam p) as [rid|e]; simpl.
  2:{ repeat (rewrite Hstaged; simpl). reflexivity. }
  destruct (getTxidParam p) as [txid|e]; simpl.
  2:{ repeat (rewrite Hstaged; simpl). reflexivity. }
  destruct (getVoutParam p) as [vout|e]; simpl.
  2:{ repeat (rewrite Hstaged; simpl). reflexivity. }
  rewrite Hstaged. simpl.
  destruct (select_consignment rid (consignments st)) as [prev|] eqn:Hsel; simpl.
  - destruct (String.eqb _ _); simpl; repeat (rewrite Hstaged; simpl); reflexivity.
  - rewrite Hstaged. simpl. rewrite (select_none_existsb _ _ Hsel).
    destruct (sqlite_bindable vout); simpl; [reflexivity|].
    rewrite lookup_delete_eq. simpl. reflexivity.
Qed.

Lemma media_post_staged (p : params) (f : File.t) (bytes : list byte) (st : state) :
  tempDir st !! File.filename f = Some bytes ->
  media_post p (Some f) st =
    match getAttachmentIDParam p with
    | Throw e => (Throw e, unstage (File.filename f) st)
    | Ok attachmentID =>
        match List.find (has_attachment attachmentID) (media st) with
        | Some prevFile =>
            if String.eqb (Media.filename prevFile) (genHash bytes)
            then (Ok false, unstage (File.filename f) st)
            else (Throw (CannotChangeUploadedFile p), unstage (File.filename f) st)
        | None =>
            (Ok true,
             set_media (media st ++ [Media.mk attachmentID (genHash bytes)])
               (store MediaDir (genHash bytes) bytes (unstage (File.filename f) st)))
        end
    end.
Proof.
  intros Hstaged.
  unfold media_post, discard_upload, genHashFromFile, getMedia, readFileSync,
    existsSync, unlinkSync, renameSync, insert_media.
  unfold_M. simpl.
  destruct (getAttachmentIDParam p) as [aid|e]; simpl.
  2:{ repeat (rewrite Hstaged; simpl). reflexivity. }
  rewrite Hstaged. simpl.
  destruct (List.find (has_attachment aid) (media st)) as [prev|] eqn:Hsel; simpl.
  - destruct (String.eqb _ _); simpl; repeat (rewrite Hstaged; simpl); reflexivity.
  - rewrite Hstaged. simpl. rewrite (find_none_existsb _ _ Hsel). reflexivity.
Qed.

(** Without a staged file under the upload's name both methods fail and
    change nothing. *)
Lemma consignment_post_unstaged (p : params) (f : File.t) (st : state) :
  tempDir st !! File.filename f = None ->
  exists e, consignment_post p (Some f) st = (Throw e, st).
Proof.
  intros Hnone.
  unfold consignment_post, discard_upload, genHashFromFile,
    getConsignment, readFileSync, existsSync, unlinkSync.
  unfold_M. simpl.
  destruct (getRecipientIDParam p) as [rid|e]; simpl.
  2:{ rewrite Hnone. simpl. eauto. }
  destruct (getTxidParam p) as [txid|e]; simpl.
  2:{ rewrite Hnone. simpl. eauto. }
  destruct (getVoutParam p) as [vout|e]; simpl.
  2:{ rewrite Hnone. simpl. eauto. }
  rewrite Hnone. simpl. rewrite Hnone. simpl. eauto.
Qed.

Lemma media_post_unstaged (p : params) (f : File.t) (st : state) :
  tempDir st !! File.filename f = None ->
  exists e, media_post p (Some f) st = (Throw e, st).
Proof.
  intros Hnone.
  unfold media_post, discard_upload, genHashFromFile, getMedia, readFileSync,
    existsSync, unlinkSync.
  unfold_M. simpl.
  destruct (getAttachmentIDParam p) as [aid|e]; simpl.
  2:{ rewrite Hnone. simpl. eauto. }
  rewrite Hnone. simpl. rewrite Hnone. simpl. eauto.
Qed.

Lemma media_post_no_file (p : params) (st : state) :
  exists e, media_post p None st = (Throw e, st).
Proof.
  unfold media_post, discard_upload. unfold_M. simpl.
  destruct (getAttachmentIDParam p); simpl; eauto.
Qed.

Lemma tempDir_unstage (name : string) (st : state) :
  tempDir (unstage name st) !! name = None.
Proof. unfold unstage. simpl. apply lookup_delete_eq. Qed.

End UploadCases.

(** ** Base64: the reader recovers the bytes *)

Lemma base64_alphabet (n : N) :
  (n < 64)%N ->
  base64_value (base64_char n) = Some n /\
  Ascii.eqb (base64_char n) base64_pad = false.
Proof.
  intros Hn.
  assert (Hall : forallb
            (fun k => match base64_value (base64_char k) with
                      | Some m => N.eqb m k
                      | None => false
                      end && negb (Ascii.eqb (base64_char k) base64_pad))
            (map N.of_nat (seq 0 64)) = true) by (vm_compute; reflexivity).
  rewrite forallb_forall in Hall.
  assert (Hin : In n (map N.of_nat (seq 0 64))).
  { apply in_map_iff. exists (N.to_nat n). split; [apply N2Nat.id|].
    apply in_seq. lia. }
  specialize (Hall n Hin). apply andb_prop in Hall as [Hval Hpad].
  destruct (base64_value (base64_char n)) as [m|]; [|discriminate].
  apply N.eqb_eq in Hval. subst m.
  split; [reflexivity|]. now destruct (Ascii.eqb _ _).
Qed.

Lemma byte_of_N_to_N (b : byte) (n : N) : n = Byte.to_N b -> Byte.of_N n = Some b.
Proof. intros ->. apply Byte.of_to_N. Qed.

Lemma byte_range (b : byte) : (Byte.to_N b < 256)%N.
Proof. pose proof (Byte.to_N_bounded b). lia. Qed.

Ltac div_lia := zify; Z.to_euclidean_division_equations; lia.

Lemma base64_group_three (a b c : byte) :
  base64_group
    (base64_char (Byte.to_N a / 4))
    (base64_char ((Byte.to_N a mod 4) * 16 + Byte.to_N b / 16))
    (base64_char ((Byte.to_N b mod 16) * 4 + Byte.to_N c / 64))
    (base64_char (Byte.to_N c mod 64))
  = Some [a; b; c].
Proof.
  pose proof (byte_range a) as Ha. pose proof (byte_range b) as Hb.
  pose proof (byte_range c) as Hc.
  unfold base64_group.
  destruct (base64_alphabet (Byte.to_N a / 4)) as [-> _]; [div_lia|].
  destruct (base64_alphabet ((Byte.to_N a mod 4) * 16 + Byte.to_N b / 16)) as [-> _]; [div_lia|].
  destruct (base64_alphabet ((Byte.to_N b mod 16) * 4 + Byte.to_N c / 64)) as [-> ->]; [div_lia|].
  destruct (base64_alphabet (Byte.to_N c mod 64)) as [-> ->]; [div_lia|].
  rewrite (byte_of_N_to_N a) by div_lia.
  rewrite (byte_of_N_to_N b) by div_lia.
  rewrite (byte_of_N_to_N c) by div_lia.
  reflexivity.
Qed.

Lemma base64_group_two (a b : byte) :
  base64_group
    (base64_char (Byte.to_N a / 4))
    (base64_char ((Byte.to_N a mod 4) * 16 + Byte.to_N b / 16))
    (base64_char ((Byte.to_N b mod 16) * 4))
    base64_pad
  = Some [a; b].
Proof.
  pose proof (byte_range a) as Ha. pose proof (byte_range b) as Hb.
  unfold base64_group.
  destruct (base64_alphabet (Byte.to_N a / 4)) as [-> _]; [div_lia|].
  destruct (base64_alphabet ((Byte.to_N a mod 4) * 16 + Byte.to_N b / 16)) as [-> _]; [div_lia|].
  destruct (base64_alphabet ((Byte.to_N b mod 16) * 4)) as [-> ->]; [div_lia|].
  rewrite (byte_of_N_to_N a) by div_lia.
  rewrite (byte_of_N_to_N b) by div_lia.
  reflexivity.
Qed.

Lemma base64_group_one (a : byte) :
  base64_group
    (base64_char (Byte.to_N a / 4))
    (base64_char ((Byte.to_N a mod 4) * 16))
    base64_pad base64_pad
  = Some [a].
Proof.
  pose proof (byte_range a) as Ha.
  unfold base64_group.
  destruct (base64_alphabet (Byte.to_N a / 4)) as [-> _]; [div_lia|].
  destruct (base64_alphabet ((Byte.to_N a mod 4) * 16)) as [-> _]; [div_lia|].
  rewrite (byte_of_N_to_N a) by div_lia.
  reflexivity.
Qed.

(** Lists, three elements at a time. *)
Lemma list_ind3 {A} (P : list A -> Prop) :
  P [] ->
  (forall a, P [a]) ->
  (forall a b, P [a; b]) ->
  (forall a b c rest, P rest -> P (a :: b :: c :: rest)) ->
  forall l, P l.
Proof.
  intros Hnil Hone Htwo Hstep.
  assert (Hall : forall n l, length l <= n -> P l).
  { induction n as [|n IH]; intros l Hlen.
    - destruct l; [exact Hnil|simpl in Hlen; lia].
    - destruct l as [|a [|b [|c rest]]]; auto.
      apply Hstep. apply IH. simpl in Hlen. lia. }
  intros l. apply (Hall (length l)). lia.
Qed.

Lemma base64_decode_encode (bytes : list byte) :
  base64_decode (base64_encode bytes) = Some bytes.
Proof.
  induction bytes as [|a|a b|a b c rest IH] using list_ind3.
  - reflexivity.
  - cbn [base64_encode base64_decode]. now rewrite base64_group_one.
  - cbn [base64_encode base64_decode]. now rewrite base64_group_two.
  - cbn [base64_encode base64_decode]. rewrite base64_group_three.
    cbn [length Nat.eqb]. now rewrite IH.
Qed.

(** ** Acknowledgments *)

(** C10: [ack.post] looks the consignment up before it reads the [ack]
    flag: a request whose [recipient_id] names no record fails with
    [NotFoundConsignment] whatever the state of its [ack] parameter (present,
    missing or invalid), and changes nothing. *)
Theorem ack_post_lookup_before_flag (p : params) (rid : string) (st : state) :
  getRecipientIDParam p = Ok rid ->
  select_consignment rid (consignments st) = None ->
  ack_post p st = (Throw (NotFoundConsignment p), st).
Proof.
  intros Hrid Hsel. unfold ack_post, bind.
  now rewrite (getConsignmentOrFail_unknown p rid st Hrid Hsel).
Qed.

(** The request has a valid [recipient_id] and no [ack] member at all. *)
Lemma ack_post_lookup_before_flag_witness :
  getAckParam sample_params = Throw (MissingAck sample_params) /\
  ack_post sample_params initial_state
  = (Throw (NotFoundConsignment sample_params), initial_state).
Proof.
  split; [reflexivity|].
  apply (ack_post_lookup_before_flag sample_params "blindTest" initial_state);
    reflexivity.
Defined.



(** ** Uploads *)

Lemma records_of_none (rid : string) (rows : list ConsignmentDB.t) :
  select_consignment rid rows = None -> List.filter (has_recipient rid) rows = [].
Proof.
  unfold select_consignment. induction rows as [|row rows IH]; simpl; [reflexivity|].
  destruct (has_recipient rid row); [discriminate|exact IH].
Qed.

Lemma stage_lookup (f : File.t) (st : state) :
  tempDir (stage (Some f) st) !! File.filename f = Some (File.content f).
Proof. simpl. apply lookup_insert_eq. Qed.

Lemma consignment_post_params_ok `{JSRuntime}
    (p : params) (rid txid : string) (vout : option json) :
  getRecipientIDParam p = Ok rid ->
  getTxidParam p = Ok txid ->
  getVoutParam p = Ok vout ->
  consignment_post_params p = Ok (rid, txid, vout).
Proof.
  intros Hrid Htxid Hvout. unfold consignment_post_params.
  now rewrite Hrid, Htxid, Hvout.
Qed.

(** C1: a first [consignment.post] for a recipient without a record answers
    [true]; a second one for the same recipient with a file of identical
    content answers [false], inserts nothing, leaves the permanent directory
    as it was and removes its staged upload; the recipient then has exactly
    one row. *)
Theorem consignment_post_twice `{JSRuntime} `{Platform}
    (p p' : params) (f f' : File.t) (rid txid txid' : string)
    (vout vout' : option json) (st : state) :
  getRecipientIDParam p = Ok rid ->
  getTxidParam p = Ok txid ->
  getVoutParam p = Ok vout ->
  sqlite_bindable vout = true ->
  getRecipientIDParam p' = Ok rid ->
  getTxidParam p' = Ok txid' ->
  getVoutParam p' = Ok vout' ->
  File.content f' = File.content f ->
  select_consignment rid (consignments st) = None ->
  let first := consignment_post p (Some f) (stage (Some f) st) in
  let second := consignment_post p' (Some f') (stage (Some f') (snd first)) in
  fst first = Ok true /\
  fst second = Ok false /\
  length (records_of rid (snd second)) = 1 /\
  consignments (snd second) = consignments (snd first) /\
  consignmentDir (snd second) = consignmentDir (snd first) /\
  tempDir (snd second) !! File.filename f' = None.
Proof.
  intros Hrid Htxid Hvout Hbind Hrid' Htxid' Hvout' Hsame Hfresh first second.
  set (row := new_row p rid (genHash (File.content f)) txid vout).
  set (st1 := set_consignments (consignments st ++ [row])
                (store ConsignmentDir (genHash (File.content f)) (File.content f)
                   (unstage (File.filename f) (stage (Some f) st)))).
  assert (Hfirst : first = (Ok true, st1)).
  { subst first. rewrite (consignment_post_staged p f _ _ (stage_lookup f st)).
    rewrite (consignment_post_params_ok p rid txid vout Hrid Htxid Hvout).
    replace (consignments (stage (Some f) st)) with (consignments st) by reflexivity.
    now rewrite Hfresh, Hbind. }
  assert (Hfound : select_consignment rid (consignments st1)
          = Some (Consignment.mk rid (genHash (File.content f)) txid (stored_vout vout) None
                    (option_map JSON_stringify (getSenderAmountParam p)))).
  { subst st1. cbn [set_consignments consignments]. unfold select_consignment.
    unfold select_consignment in Hfresh.
    rewrite find_app_none
      by (destruct (List.find (has_recipient rid) (consignments st)); congruence).
    simpl. unfold has_recipient. simpl. now rewrite String.eqb_refl. }
  assert (Hsecond : second = (Ok false, unstage (File.filename f') (stage (Some f') st1))).
  { subst second. rewrite Hfirst. cbn [snd].
    rewrite (consignment_post_staged p' f' _ _ (stage_lookup f' st1)).
    rewrite (consignment_post_params_ok p' rid txid' vout' Hrid' Htxid' Hvout').
    replace (consignments (stage (Some f') st1)) with (consignments st1) by reflexivity.
    rewrite Hfound. cbn [Consignment.filename]. now rewrite Hsame, String.eqb_refl. }
  rewrite Hsecond, Hfirst. cbn [fst snd].
  repeat split.
  - unfold records_of. subst st1. cbn. rewrite List.filter_app.
    rewrite (records_of_none _ _ Hfresh). simpl.
    unfold has_recipient. simpl. now rewrite String.eqb_refl.
  - apply tempDir_unstage.
Qed.

Lemma consignment_post_twice_witness :
  let first := @consignment_post example_runtime example_platform
                 sample_params (Some sample_file) (stage (Some sample_file) initial_state) in
  let second := @consignment_post example_runtime example_platform
                  sample_params (Some sample_file_again)
                  (stage (Some sample_file_again) (snd first)) in
  fst first = Ok true /\
  fst second = Ok false /\
  length (records_of "blindTest" (snd second)) = 1 /\
  consignments (snd second) = consignments (snd first) /\
  consignmentDir (snd second) = consignmentDir (snd first) /\
  tempDir (snd second) !! File.filename sample_file_again = None.
Proof.
  exact (@consignment_post_twice example_runtime example_platform
           sample_params sample_params sample_file sample_file_again
           "blindTest" "t1" "t1" None None initial_state
           eq_refl eq_refl eq_refl eq_refl eq_refl eq_refl eq_refl eq_refl eq_refl).
Defined.

(** C2: with the key already bound, a post whose file hashes to something
    else than the stored name fails with [CannotChangeUploadedFile]; the
    tables and the permanent directories are exactly as before (so the
    record keeps its recipient id, file name, txid, vout, sender amount and
    ack), and the staged upload is gone.  The same holds for [media.post]. *)
Theorem changed_upload_rejected `{JSRuntime} `{Platform}
    (p : params) (f : File.t) (st : state) :
  (forall rid txid vout c,
     getRecipientIDParam p = Ok rid ->
     getTxidParam p = Ok txid ->
     getVoutParam p = Ok vout ->
     select_consignment rid (consignments st) = Some c ->
     Consignment.filename c <> genHash (File.content f) ->
     let '(answer, st') := consignment_post p (Some f) (stage (Some f) st) in
     answer = Throw (CannotChangeUploadedFile p) /\
     consignments st' = consignments st /\
     select_consignment rid (consignments st') = Some c /\
     media st' = media st /\
     consignmentDir st' = consignmentDir st /\
     mediaDir st' = mediaDir st /\
     tempDir st' !! File.filename f = None) /\
  (forall aid m,
     getAttachmentIDParam p = Ok aid ->
     List.find (has_attachment aid) (media st) = Some m ->
     Media.filename m <> genHash (File.content f) ->
     let '(answer, st') := media_post p (Some f) (stage (Some f) st) in
     answer = Throw (CannotChangeUploadedFile p) /\
     media st' = media st /\
     List.find (has_attachment aid) (media st') = Some m /\
     consignments st' = consignments st /\
     consignmentDir st' = consignmentDir st /\
     mediaDir st' = mediaDir st /\
     tempDir st' !! File.filename f = None).
Proof.
  split.
  - intros rid txid vout c Hrid Htxid Hvout Hsel Hdiff.
    rewrite (consignment_post_staged p f _ _ (stage_lookup f st)).
    rewrite (consignment_post_params_ok p rid txid vout Hrid Htxid Hvout).
    replace (consignments (stage (Some f) st)) with (consignments st) by reflexivity.
    rewrite Hsel.
    destruct (String.eqb_spec (Consignment.filename c) (genHash (File.content f)))
      as [Heq|_]; [contradiction|].
    repeat split; try reflexivity; try assumption. apply tempDir_unstage.
  - intros aid m Haid Hfind Hdiff.
    rewrite (media_post_staged p f _ _ (stage_lookup f st)).
    rewrite Haid.
    replace (media (stage (Some f) st)) with (media st) by reflexivity.
    rewrite Hfind.
    destruct (String.eqb_spec (Media.filename m) (genHash (File.content f)))
      as [Heq|_]; [contradiction|].
    repeat split; try reflexivity; try assumption. apply tempDir_unstage.
Qed.

(** Both keys of [sample_store] are bound to the payload "X"; the posts
    below carry "Y". *)
Lemma changed_upload_rejected_witness :
  (let '(answer, st') :=
     @consignment_post example_runtime example_platform sample_params (Some other_file)
       (stage (Some other_file) sample_store) in
   answer = Throw (CannotChangeUploadedFile sample_params) /\
   consignments st' = consignments sample_store /\
   select_consignment "blindTest" (consignments st') = Some sample_record /\
   media st' = media sample_store /\
   consignmentDir st' = consignmentDir sample_store /\
   mediaDir st' = mediaDir sample_store /\
   tempDir st' !! File.filename other_file = None) /\
  (let '(answer, st') :=
     @media_post example_platform sample_media_params (Some other_file)
       (stage (Some other_file) sample_store) in
   answer = Throw (CannotChangeUploadedFile sample_media_params) /\
   media st' = media sample_store /\
   List.find (has_attachment "att1") (media st')
   = Some (Media.mk "att1" (base64_encode (bytes_of_string "X"))) /\
   consignments st' = consignments sample_store /\
   consignmentDir st' = consignmentDir sample_store /\
   mediaDir st' = mediaDir sample_store /\
   tempDir st' !! File.filename other_file = None).
Proof.
  split.
  - apply (proj1 (@changed_upload_rejected example_runtime example_platform
                    sample_params other_file sample_store) "blindTest" "t1" None sample_record);
      [reflexivity | reflexivity | reflexivity | reflexivity | discriminate].
  - apply (proj2 (@changed_upload_rejected example_runtime example_platform
                    sample_media_params other_file sample_store) "att1"
                 (Media.mk "att1" (base64_encode (bytes_of_string "X"))));
      [reflexivity | reflexivity | discriminate].
Defined.

(** On their own the two upload methods leave nothing staged under the
    upload's name, whatever the parameters and the state they start from and
    whichever way they end (fresh insert, duplicate, validation error,
    conflict, failure of the store). *)
Lemma upload_methods_leave_nothing_staged `{JSRuntime} `{Platform}
    (p : params) (f : File.t) (st : state) :
  tempDir (snd (consignment_post p (Some f) st)) !! File.filename f = None /\
  tempDir (snd (media_post p (Some f) st)) !! File.filename f = None.
Proof.
  split.
  - destruct (tempDir st !! File.filename f) as [bytes|] eqn:Hstaged.
    + rewrite (consignment_post_staged p f bytes st Hstaged).
      destruct (consignment_post_params p) as [[[rid txid] vout]|e];
        [|apply tempDir_unstage].
      destruct (select_consignment rid (consignments st)) as [prev|].
      * destruct (String.eqb _ _); apply tempDir_unstage.
      * cbn zeta. destruct (sqlite_bindable vout); simpl; apply lookup_delete_eq.
    + destruct (consignment_post_unstaged p f st Hstaged) as [e ->]. exact Hstaged.
  - destruct (tempDir st !! File.filename f) as [bytes|] eqn:Hstaged.
    + rewrite (media_post_staged p f bytes st Hstaged).
      destruct (getAttachmentIDParam p) as [aid|e]; [|apply tempDir_unstage].
      destruct (List.find _ (media st)) as [prev|].
      * destruct (String.eqb _ _); apply tempDir_unstage.
      * simpl. apply lookup_delete_eq.
    + destruct (media_post_unstaged p f st Hstaged) as [e ->]. exact Hstaged.
Qed.

(** C9 does not hold of the endpoint: the callback of [POST /json-rpc]
    parses a string [params] and logs the parameters before it calls
    [receive], outside every [try]; when [JSON.parse] rejects the string, or
    when the logging throws, no method runs, nothing is answered, and the
    file that was staged for the call is still in the temp directory
    afterwards: neither the [catch] block of the method nor the cleanup
    after the response is reached. *)
Theorem staged_upload_survives_callback_failure `{JSRuntime} `{Platform}
    (req : request) (f : File.t) (st : state) :
  req_file req = Some f ->
  (parse_params (rpc_params req) = None \/
   exists q, parse_params (rpc_params req) = Some q /\ logs_params q = false) ->
  handle_request req st = (None, stage (Some f) st) /\
  tempDir (snd (handle_request req st)) !! File.filename f = Some (File.content f).
Proof.
  intros Hfile Hfails.
  assert (Hcall : handle_request req st = (None, stage (Some f) st)).
  { unfold handle_request. rewrite Hfile.
    destruct Hfails as [->|(q & -> & Hlog)]; [reflexivity|]. now rewrite Hlog. }
  split; [exact Hcall|]. rewrite Hcall. apply stage_lookup.
Qed.

(** A [consignment.post] whose [params] is a string that is not JSON, and
    one whose parameters hold an array that cannot be printed. *)
Lemma staged_upload_survives_callback_failure_witness :
  (@handle_request example_runtime example_platform unparsable_post initial_state
   = (None, stage (Some sample_file) initial_state) /\
   tempDir (snd (@handle_request example_runtime example_platform
                   unparsable_post initial_state))
   !! "upload-1" = Some (bytes_of_string "X")) /\
  (@handle_request example_runtime example_platform unprintable_post initial_state
   = (None, stage (Some sample_file) initial_state) /\
   tempDir (snd (@handle_request example_runtime example_platform
                   unprintable_post initial_state))
   !! "upload-1" = Some (bytes_of_string "X")).
Proof.
  split.
  - apply (@staged_upload_survives_callback_failure example_runtime example_platform
             unparsable_post sample_file initial_state).
    + reflexivity.
    + left. reflexivity.
  - apply (@staged_upload_survives_callback_failure example_runtime example_platform
             unprintable_post sample_file initial_state).
    + reflexivity.
    + right. eexists. split; reflexivity.
Defined.

(** ** One call at a time *)

Section Steps.
Context `{JSRuntime} `{Platform}.

Lemma server_info_state (uptime : Z) (st : state) : snd (server_info uptime st) = st.
Proof. reflexivity. Qed.

Lemma getConsignmentOrFail_state (p : params) (st : state) :
  snd (getConsignmentOrFail p st) = st.
Proof.
  unfold getConsignmentOrFail, getConsignment. unfold_M.
  destruct (getRecipientIDParam p); simpl; [|reflexivity].
  destruct (select_consignment _ _); reflexivity.
Qed.

Lemma consignment_get_state (p : params) (st : state) : snd (consignment_get p st) = st.
Proof.
  unfold consignment_get, bind.
  pose proof (getConsignmentOrFail_state p st) as Hst.
  destruct (getConsignmentOrFail p st) as [[c|e] st0]; simpl in Hst; subst st0;
    [|reflexivity].
  unfold readFileSync.
  match goal with |- context [?m !! ?k] => destruct (m !! k) end; [|reflexivity].
  destruct (Consignment.sender_amount c) as [text|]; [|reflexivity].
  destruct (truthy (JStr text)); [|reflexivity].
  destruct (JSON_parse text); reflexivity.
Qed.

Lemma media_get_state (p : params) (st : state) : snd (media_get p st) = st.
Proof.
  unfold media_get, getMedia, readFileSync. unfold_M.
  destruct (getAttachmentIDParam p); simpl; [|reflexivity].
  destruct (List.find _ _); simpl; [|reflexivity].
  match goal with |- context [?m !! ?k] => destruct (m !! k) end; reflexivity.
Qed.

Lemma ack_get_state (p : params) (st : state) : snd (ack_get p st) = st.
Proof.
  unfold ack_get, bind. pose proof (getConsignmentOrFail_state p st) as Hst.
  destruct (getConsignmentOrFail p st) as [[c|e] st0]; simpl in *; congruence.
Qed.

(** [ack.post] either leaves the state alone or settles the unset flag of
    the recipient it names. *)
Lemma ack_post_state (p : params) (st : state) :
  snd (ack_post p st) = st \/
  exists rid c v,
    select_consignment rid (consignments st) = Some c /\
    Consignment.ack c = None /\
    ack_post p st = (Ok true, set_consignments (settle rid v (consignments st)) st).
Proof.
  unfold ack_post, getConsignmentOrFail, getConsignment. unfold_M.
  destruct (getRecipientIDParam p) as [rid|e]; simpl; [|now left].
  destruct (select_consignment rid (consignments st)) as [c|] eqn:Hsel; simpl; [|now left].
  destruct (getAckParam p) as [v|e]; simpl; [|now left].
  destruct (Consignment.ack c) as [stored|] eqn:Hack.
  - destruct (Bool.eqb stored v); now left.
  - right. exists rid, c, v. repeat split; try assumption.
    unfold update_ack, settle. now rewrite (select_consignment_recipient _ _ _ Hsel).
Qed.

End Steps.

Section EndpointStep.
Context `{JSRuntime} `{Platform}.

Lemma fmap_M_state {A B} (g : A -> B) (m : M A) (st : state) :
  snd (fmap_M g m st) = snd (m st).
Proof. unfold fmap_M, bind, ret. now destruct (m st) as [[a|e] st']. Qed.

(** What [consignment.post] does to the table and to the permanent
    directories when the request's file has been staged. *)
Lemma consignment_post_step (p : params) (file : option File.t) (st : state) :
  let st' := snd (consignment_post p file (stage file st)) in
  table_step "consignment.post" (consignments st) (consignments st') /\
  dir_step file (consignmentDir st) (consignmentDir st') /\
  mediaDir st' = mediaDir st /\ media st' = media st.
Proof.
  destruct file as [f|]; [|simpl; repeat split; constructor].
  cbn zeta. rewrite (consignment_post_staged p f _ _ (stage_lookup f st)).
  replace (consignments (stage (Some f) st)) with (consignments st) by reflexivity.
  destruct (consignment_post_params p) as [[[rid txid] vout]|e];
    [|repeat split; constructor].
  destruct (select_consignment rid (consignments st)) as [prev|] eqn:Hsel.
  - destruct (String.eqb _ _); repeat split; constructor.
  - cbn zeta. destruct (sqlite_bindable vout); simpl.
    + repeat split; [|now apply (dir_store _ _ f)].
      now apply table_insert.
    + repeat split; [constructor|now apply (dir_store _ _ f)].
Qed.

Lemma media_post_step (p : params) (file : option File.t) (st : state) :
  let st' := snd (media_post p file (stage file st)) in
  consignments st' = consignments st /\
  consignmentDir st' = consignmentDir st /\
  dir_step file (mediaDir st) (mediaDir st') /\
  media_step (media st) (media st').
Proof.
  destruct file as [f|].
  - cbn zeta. rewrite (media_post_staged p f _ _ (stage_lookup f st)).
    destruct (getAttachmentIDParam p) as [aid|e];
      [|simpl; repeat split; (apply dir_same || now left)].
    destruct (List.find _ _) as [prev|].
    + destruct (String.eqb _ _); simpl; repeat split; (apply dir_same || now left).
    + simpl. repeat split; [now apply (dir_store _ _ f)|]. right. eauto.
  - cbn zeta. destruct (media_post_no_file p (stage None st)) as [e ->].
    simpl. repeat split; (apply dir_same || now left).
Qed.

Lemma delete_unhandled_frame (file : option File.t) (st : state) :
  consignments (delete_unhandled file st) = consignments st /\
  media (delete_unhandled file st) = media st /\
  consignmentDir (delete_unhandled file st) = consignmentDir st /\
  mediaDir (delete_unhandled file st) = mediaDir st.
Proof.
  destruct file as [f|]; simpl; [|auto].
  destruct (bool_decide _); auto.
Qed.

Lemma stage_frame (file : option File.t) (st : state) :
  consignments (stage file st) = consignments st /\
  media (stage file st) = media st /\
  consignmentDir (stage file st) = consignmentDir st /\
  mediaDir (stage file st) = mediaDir st.
Proof. destruct file; simpl; auto. Qed.

(** The effect of [receive] on a state in which the file, if any, has been
    staged. *)
Lemma receive_step (name : string) (p : params) (file : option File.t)
    (uptime : Z) (st : state) :
  let st' := snd (receive name p file uptime (stage file st)) in
  table_step name (consignments st) (consignments st') /\
  dir_step file (consignmentDir st) (consignmentDir st') /\
  dir_step file (mediaDir st) (mediaDir st') /\
  media_step (media st) (media st').
Proof.
  cbn zeta. unfold receive.
  destruct (stage_frame file st) as (Hc & Hm & Hcd & Hmd).
  assert (Hsame : forall s, s = stage file st ->
            table_step name (consignments st) (consignments s) /\
            dir_step file (consignmentDir st) (consignmentDir s) /\
            dir_step file (mediaDir st) (mediaDir s) /\
            media_step (media st) (media s)).
  { intros s ->. rewrite Hc, Hcd, Hmd, Hm.
    repeat split; (apply table_same || apply dir_same || now left). }
  destruct (String.eqb_spec name "server.info");
    [rewrite fmap_M_state; now apply Hsame|].
  destruct (String.eqb_spec name "consignment.get");
    [rewrite fmap_M_state, consignment_get_state; now apply Hsame|].
  destruct (String.eqb_spec name "consignment.post") as [->|].
  { rewrite fmap_M_state.
    destruct (consignment_post_step p file st) as (Ht & Hd & Hmd' & Hm').
    repeat split; [exact Ht|exact Hd|rewrite Hmd'; constructor|rewrite Hm'; now left]. }
  destruct (String.eqb_spec name "media.get");
    [rewrite fmap_M_state, media_get_state; now apply Hsame|].
  destruct (String.eqb_spec name "media.post").
  { rewrite fmap_M_state.
    destruct (media_post_step p file st) as (Ht & Hd & Hmd' & Hm').
    repeat split;
      [rewrite Ht; constructor|rewrite Hd; constructor|exact Hmd'|exact Hm']. }
  destruct (String.eqb_spec name "ack.get");
    [rewrite fmap_M_state, ack_get_state; now apply Hsame|].
  destruct (String.eqb_spec name "ack.post") as [->|]; [|now apply Hsame].
  rewrite fmap_M_state.
  destruct (ack_post_state p (stage file st)) as [->|(rid & c & v & Hsel & Hack & ->)];
    [now apply Hsame|].
  cbn [snd set_consignments consignments consignmentDir mediaDir media].
  rewrite Hc, Hcd, Hmd, Hm in *.
  repeat split; [|apply dir_same|apply dir_same|now left].
  now apply (table_settle _ _ rid c v).
Qed.

(** One call through the endpoint. *)
Lemma handle_request_step (req : request) (st : state) :
  let st' := snd (handle_request req st) in
  table_step (rpc_method req) (consignments st) (consignments st') /\
  dir_step (req_file req) (consignmentDir st) (consignmentDir st') /\
  dir_step (req_file req) (mediaDir st) (mediaDir st') /\
  media_step (media st) (media st').
Proof.
  cbn zeta. unfold handle_request.
  assert (Hidle : table_step (rpc_method req) (consignments st)
                    (consignments (stage (req_file req) st)) /\
                  dir_step (req_file req) (consignmentDir st)
                    (consignmentDir (stage (req_file req) st)) /\
                  dir_step (req_file req) (mediaDir st)
                    (mediaDir (stage (req_file req) st)) /\
                  media_step (media st) (media (stage (req_file req) st))).
  { destruct (stage_frame (req_file req) st) as (-> & -> & -> & ->).
    repeat split; (apply table_same || apply dir_same || now left). }
  destruct (parse_params (rpc_params req)) as [q|]; [|exact Hidle].
  destruct (logs_params q); [|exact Hidle]. cbn [negb].
  pose proof (receive_step (rpc_method req) q (req_file req) (req_uptime req) st) as Hstep.
  cbn zeta in Hstep.
  destruct (receive _ _ _ _ _) as [answer st1]. cbn [snd] in Hstep.
  destruct (logs_response answer); cbn [negb snd]; [|exact Hstep].
  destruct (delete_unhandled_frame (req_file req) st1) as (-> & -> & -> & ->).
  exact Hstep.
Qed.

End EndpointStep.

(** ** What a step of the table means for one recipient *)

Lemma settle_flag (v : bool) : negb ((if v then 1 else 0) =? 0)%Z = v.
Proof. now destruct v. Qed.

Lemma select_settle_same (rid : string) (v : bool) (rows : list ConsignmentDB.t)
    (c : Consignment.t) :
  select_consignment rid rows = Some c ->
  select_consignment rid (settle rid v rows)
  = Some (Consignment.mk (Consignment.recipientID c) (Consignment.filename c)
            (Consignment.txid c) (Consignment.vout c) (Some v)
            (Consignment.sender_amount c)).
Proof.
  intros Hsel. unfold settle.
  rewrite (select_after_update rid _ rows c Hsel). now rewrite settle_flag.
Qed.

Lemma select_settle_other (rid rid' : string) (v : bool) (rows : list ConsignmentDB.t) :
  rid' <> rid ->
  select_consignment rid' (settle rid v rows) = select_consignment rid' rows.
Proof. intros Hne. unfold settle. now apply select_after_update_other. Qed.

Lemma select_app_some (rid : string) (rows more : list ConsignmentDB.t) (c : Consignment.t) :
  select_consignment rid rows = Some c ->
  select_consignment rid (rows ++ more) = Some c.
Proof.
  unfold select_consignment.
  destruct (List.find (has_recipient rid) rows) as [row|] eqn:Hfind; [|discriminate].
  now rewrite (find_app_some _ _ more _ Hfind).
Qed.

Lemma select_app_none (rid : string) (rows : list ConsignmentDB.t) (row : ConsignmentDB.t) :
  select_consignment rid rows = None ->
  select_consignment rid (rows ++ [row]) = None \/
  exists c, select_consignment rid (rows ++ [row]) = Some c /\
            Consignment.ack c = option_map (fun n => negb (n =? 0)%Z) (ConsignmentDB.ack row).
Proof.
  unfold select_consignment.
  destruct (List.find (has_recipient rid) rows) as [r|] eqn:Hfind; [discriminate|].
  intros _. rewrite (find_app_none _ _ _ Hfind). simpl.
  destruct (has_recipient rid row); [right|now left].
  eexists. split; reflexivity.
Qed.

(** A record, once there, keeps everything but its flag. *)
Lemma table_step_record (name rid : string) (rows rows' : list ConsignmentDB.t)
    (c : Consignment.t) :
  table_step name rows rows' ->
  select_consignment rid rows = Some c ->
  exists c',
    select_consignment rid rows' = Some c' /\
    Consignment.recipientID c' = Consignment.recipientID c /\
    Consignment.filename c' = Consignment.filename c /\
    Consignment.txid c' = Consignment.txid c /\
    Consignment.vout c' = Consignment.vout c /\
    Consignment.sender_amount c' = Consignment.sender_amount c.
Proof.
  intros Hstep Hsel. destruct Hstep as [|row _ _ _|rid0 c0 v _ Hsel0 _].
  - exists c. repeat split; trivial.
  - exists c. split; [now apply select_app_some|repeat split; trivial].
  - destruct (String.eqb_spec rid rid0) as [->|Hne].
    + eexists. split; [exact (select_settle_same rid0 v rows c Hsel)|].
      simpl. repeat split; trivial.
    + exists c. split; [now rewrite select_settle_other|repeat split; trivial].
Qed.

(** The flag of a recipient over one step: no record may become an unset
    record, an unset flag may be settled, a settled flag stays. *)
Lemma table_step_flag (name rid : string) (rows rows' : list ConsignmentDB.t) :
  table_step name rows rows' ->
  match option_map Consignment.ack (select_consignment rid rows) with
  | None =>
      option_map Consignment.ack (select_consignment rid rows') = None \/
      (option_map Consignment.ack (select_consignment rid rows') = Some None /\
       name = "consignment.post")
  | Some None =>
      option_map Consignment.ack (select_consignment rid rows') = Some None \/
      (exists b, option_map Consignment.ack (select_consignment rid rows') = Some (Some b) /\
                 name = "ack.post")
  | Some (Some b) =>
      option_map Consignment.ack (select_consignment rid rows') = Some (Some b)
  end.
Proof.
  intros Hstep. destruct Hstep as [|row Hname Hfresh Hunset|rid0 c0 v Hname Hsel0 Hunset0].
  - destruct (select_consignment rid rows) as [c|]; simpl; [|now left].
    destruct (Consignment.ack c) as [b|]; [reflexivity|now left].
  - destruct (select_consignment rid rows) as [c|] eqn:Hsel; simpl.
    + rewrite (select_app_some rid rows [row] c Hsel). simpl.
      destruct (Consignment.ack c) as [b|]; [reflexivity|now left].
    + destruct (select_app_none rid rows row Hsel) as [->|(c & -> & Hc)]; [now left|].
      right. simpl. rewrite Hc, Hunset. auto.
  - destruct (String.eqb_spec rid rid0) as [->|Hne].
    + rewrite Hsel0, (select_settle_same rid0 v rows c0 Hsel0). simpl. rewrite Hunset0.
      right. exists v. auto.
    + rewrite (select_settle_other rid0 rid v rows Hne).
      destruct (select_consignment rid rows) as [c|]; simpl; [|now left].
      destruct (Consignment.ack c) as [b|]; [reflexivity|now left].
Qed.

(** ** The acknowledgment flag along a sequence of calls *)

Section AckTraces.
Context `{JSRuntime} `{Platform}.

Lemma ack_state_step (rid : string) (req : request) (st : state) :
  match ack_state rid st with
  | None =>
      ack_state rid (snd (handle_request req st)) = None \/
      (ack_state rid (snd (handle_request req st)) = Some None /\
       rpc_method req = "consignment.post")
  | Some None =>
      ack_state rid (snd (handle_request req st)) = Some None \/
      (exists b, ack_state rid (snd (handle_request req st)) = Some (Some b) /\
                 rpc_method req = "ack.post")
  | Some (Some b) => ack_state rid (snd (handle_request req st)) = Some (Some b)
  end.
Proof.
  destruct (handle_request_step req st) as (Hstep & _).
  exact (table_step_flag (rpc_method req) rid _ _ Hstep).
Qed.

Lemma settled_stays (rid : string) (b : bool) (reqs : list request) (st : state) :
  ack_state rid st = Some (Some b) -> ack_state rid (run reqs st) = Some (Some b).
Proof.
  revert st. induction reqs as [|req reqs IH]; intros st Hst; [exact Hst|].
  simpl. apply IH. pose proof (ack_state_step rid req st) as Hstep.
  now rewrite Hst in Hstep.
Qed.

Lemma settled_no_writes (rid : string) (b : bool) (reqs : list request) (st : state) :
  ack_state rid st = Some (Some b) -> ack_writes rid reqs st = 0.
Proof.
  revert st. induction reqs as [|req reqs IH]; intros st Hst; [reflexivity|].
  simpl. pose proof (ack_state_step rid req st) as Hstep. rewrite Hst in Hstep.
  rewrite (IH _ Hstep). unfold ack_written. rewrite Hst, Hstep.
  now rewrite bool_decide_eq_true_2.
Qed.

Lemma ack_writes_at_most_one (rid : string) (reqs : list request) (st : state) :
  ack_writes rid reqs st <= 1.
Proof.
  revert st. induction reqs as [|req reqs IH]; intros st; simpl; [lia|].
  pose proof (ack_state_step rid req st) as Hstep.
  unfold ack_written.
  destruct (ack_state rid st) as [[b|]|] eqn:Hst.
  - rewrite Hstep, bool_decide_eq_true_2 by reflexivity. simpl. apply IH.
  - destruct Hstep as [Hsame|(b & Hset & _)].
    + rewrite Hsame, bool_decide_eq_true_2 by reflexivity. simpl. apply IH.
    + rewrite Hset, (settled_no_writes rid b reqs _ Hset).
      rewrite bool_decide_eq_false_2 by discriminate. simpl. lia.
  - simpl. apply IH.
Qed.

End AckTraces.

(** C4: along every sequence of calls the flag of a recipient moves only
    forward: a record appears with the flag unset, and only through
    [consignment.post]; an unset flag changes only through [ack.post], to a
    settled value; a settled flag is never changed again, by no call and
    over no sequence; so the flag of a record is written at most once. *)
Theorem ack_state_settles_once `{JSRuntime} `{Platform} (rid : string) (st : state) :
  (forall req,
     match ack_state rid st with
     | None =>
         ack_state rid (snd (handle_request req st)) = None \/
         (ack_state rid (snd (handle_request req st)) = Some None /\
          rpc_method req = "consignment.post")
     | Some None =>
         ack_state rid (snd (handle_request req st)) = Some None \/
         (exists b, ack_state rid (snd (handle_request req st)) = Some (Some b) /\
                    rpc_method req = "ack.post")
     | Some (Some b) => ack_state rid (snd (handle_request req st)) = Some (Some b)
     end) /\
  (forall reqs b,
     ack_state rid st = Some (Some b) -> ack_state rid (run reqs st) = Some (Some b)) /\
  (forall reqs, ack_writes rid reqs st <= 1).
Proof.
  split; [|split].
  - intros req. apply ack_state_step.
  - intros reqs b. apply settled_stays.
  - intros reqs. apply ack_writes_at_most_one.
Qed.

(** After the acknowledgment, a refusal, a new post and a read leave the
    flag where it was. *)
Lemma ack_state_settles_once_witness :
  ack_state "blindTest" sample_acked = Some (Some true) /\
  ack_state "blindTest"
    (@run example_runtime example_platform
       [sample_ack_post false; sample_post; sample_ack_get] sample_acked)
  = Some (Some true).
Proof.
  split; [reflexivity|].
  apply (proj1 (proj2 (@ack_state_settles_once example_runtime example_platform
                         "blindTest" sample_acked))).
  reflexivity.
Defined.

(** ** Fresh posts *)

Section FreshPost.
Context `{JSRuntime} `{Platform}.

Lemma consignment_post_params_inv (p : params) (rid txid : string) (vout : option json) :
  consignment_post_params p = Ok (rid, txid, vout) ->
  getRecipientIDParam p = Ok rid /\ getTxidParam p = Ok txid /\ getVoutParam p = Ok vout.
Proof.
  unfold consignment_post_params.
  destruct (getRecipientIDParam p); [|discriminate].
  destruct (getTxidParam p); [|discriminate].
  destruct (getVoutParam p); [|discriminate].
  now intros [= -> -> ->].
Qed.

(** A post that answers [true] found no record for its recipient, placed
    the file under its digest and appended the row. *)
Lemma consignment_post_fresh (p : params) (f : File.t) (st : state) :
  fst (consignment_post p (Some f) (stage (Some f) st)) = Ok true ->
  exists rid txid vout,
    consignment_post_params p = Ok (rid, txid, vout) /\
    select_consignment rid (consignments st) = None /\
    snd (consignment_post p (Some f) (stage (Some f) st))
    = set_consignments
        (consignments st ++ [new_row p rid (genHash (File.content f)) txid vout])
        (store ConsignmentDir (genHash (File.content f)) (File.content f)
           (unstage (File.filename f) (stage (Some f) st))).
Proof.
  rewrite (consignment_post_staged p f _ _ (stage_lookup f st)).
  replace (consignments (stage (Some f) st)) with (consignments st) by reflexivity.
  destruct (consignment_post_params p) as [[[rid txid] vout]|e]; [|discriminate].
  destruct (select_consignment rid (consignments st)) as [prev|] eqn:Hsel.
  - destruct (String.eqb _ _); discriminate.
  - cbn zeta. destruct (sqlite_bindable vout); [|discriminate].
    intros _. exists rid, txid, vout. auto.
Qed.

Lemma media_post_fresh (p : params) (f : File.t) (st : state) :
  fst (media_post p (Some f) (stage (Some f) st)) = Ok true ->
  exists aid,
    getAttachmentIDParam p = Ok aid /\
    List.find (has_attachment aid) (media st) = None /\
    snd (media_post p (Some f) (stage (Some f) st))
    = set_media (media st ++ [Media.mk aid (genHash (File.content f))])
        (store MediaDir (genHash (File.content f)) (File.content f)
           (unstage (File.filename f) (stage (Some f) st))).
Proof.
  rewrite (media_post_staged p f _ _ (stage_lookup f st)).
  replace (media (stage (Some f) st)) with (media st) by reflexivity.
  destruct (getAttachmentIDParam p) as [aid|e]; [|discriminate].
  destruct (List.find _ (media st)) as [prev|] eqn:Hsel.
  - destruct (String.eqb _ _); discriminate.
  - intros _. exists aid. auto.
Qed.

(** The record a fresh post leaves behind. *)
Lemma select_new_row (p : params) (rid hash txid : string) (vout : option json)
    (rows : list ConsignmentDB.t) :
  select_consignment rid rows = None ->
  select_consignment rid (rows ++ [new_row p rid hash txid vout])
  = Some (Consignment.mk rid hash txid (stored_vout vout) None
            (option_map JSON_stringify (getSenderAmountParam p))).
Proof.
  intros Hfresh. unfold select_consignment in *.
  rewrite find_app_none by (destruct (List.find _ rows); congruence).
  simpl. unfold has_recipient. simpl. now rewrite String.eqb_refl.
Qed.

Lemma unset_stays (rid : string) (reqs : list request) (st : state) :
  ack_state rid st = Some None ->
  Forall (fun req => rpc_method req <> "ack.post") reqs ->
  ack_state rid (run reqs st) = Some None.
Proof.
  revert st. induction reqs as [|req reqs IH]; intros st Hst Hreqs; [exact Hst|].
  inversion Hreqs as [|? ? Hreq Hrest]; subst. simpl. apply IH; [|exact Hrest].
  pose proof (ack_state_step rid req st) as Hstep. rewrite Hst in Hstep.
  destruct Hstep as [Hsame|(b & _ & Hname)]; [exact Hsame|contradiction].
Qed.

End FreshPost.

(** C7: [ack.get] for a recipient whose consignment was posted and never
    acknowledged since returns the unset value ([None], sent as [null]),
    not an error; for a recipient without a record it fails with
    [NotFoundConsignment]; for any other it returns the flag stored in the
    [ack] column of the recipient's row: unset for [NULL], [false] for 0
    and [true] for any other integer (the handler only ever writes 0 or 1).
    In no case does the call change the state. *)
Theorem ack_get_unset_missing_stored `{JSRuntime} `{Platform}
    (p : params) (rid : string) (st : state) :
  getRecipientIDParam p = Ok rid ->
  (forall q f reqs,
     getRecipientIDParam q = Ok rid ->
     fst (consignment_post q (Some f) (stage (Some f) st)) = Ok true ->
     Forall (fun req => rpc_method req <> "ack.post") reqs ->
     let st' := run reqs (snd (consignment_post q (Some f) (stage (Some f) st))) in
     ack_get p st' = (Ok None, st')) /\
  (List.find (has_recipient rid) (consignments st) = None ->
   ack_get p st = (Throw (NotFoundConsignment p), st)) /\
  (forall row,
     List.find (has_recipient rid) (consignments st) = Some row ->
     ack_get p st
     = (Ok match ConsignmentDB.ack row with
           | None => None
           | Some n => Some (negb (n =? 0)%Z)
           end, st)) /\
  (forall c,
     select_consignment rid (consignments st) = Some c ->
     ack_get p st = (Ok (Consignment.ack c), st)).
Proof.
  intros Hrid. split; [|split; [|split]].
  - intros q f reqs Hq Htrue Hreqs st'.
    destruct (consignment_post_fresh q f st Htrue) as (rid0 & txid & vout & Hparams & Hfresh & Hst1).
    apply consignment_post_params_inv in Hparams as (Hrid0 & _ & _).
    assert (rid0 = rid) as -> by congruence.
    assert (Hunset : ack_state rid st' = Some None).
    { subst st'. apply unset_stays; [|exact Hreqs]. rewrite Hst1. unfold ack_state.
      cbn [set_consignments consignments]. now rewrite (select_new_row q rid _ txid vout _ Hfresh). }
    unfold ack_state in Hunset.
    destruct (select_consignment rid (consignments st')) as [c|] eqn:Hsel; [|discriminate].
    injection Hunset as Hack. unfold ack_get, bind.
    rewrite (getConsignmentOrFail_found p rid c st' Hrid Hsel). unfold ret. now rewrite Hack.
  - intros Hnone. unfold ack_get, bind.
    rewrite (getConsignmentOrFail_unknown p rid st Hrid); [reflexivity|].
    unfold select_consignment. now rewrite Hnone.
  - intros row Hrow. unfold ack_get, bind.
    erewrite (getConsignmentOrFail_found p rid _ st Hrid);
      [|unfold select_consignment; rewrite Hrow; reflexivity].
    unfold ret. simpl. now destruct (ConsignmentDB.ack row).
  - intros c Hsel. unfold ack_get, bind.
    now rewrite (getConsignmentOrFail_found p rid c st Hrid Hsel).
Qed.

(** The sample consignment is posted, read and posted again, then its flag
    is asked for; the flag of an unknown recipient is asked for; and the
    flag is read from tables whose row holds 1, 0 and [NULL] in the [ack]
    column. *)
Lemma ack_get_unset_missing_stored_witness :
  (let st' := @run example_runtime example_platform [sample_get; sample_post]
                (snd (@consignment_post example_runtime example_platform sample_params
                        (Some sample_file) (stage (Some sample_file) initial_state))) in
   ack_get sample_params st' = (Ok None, st')) /\
  ack_get sample_params initial_state
  = (Throw (NotFoundConsignment sample_params), initial_state) /\
  ack_get sample_params sample_acked = (Ok (Some true), sample_acked) /\
  ack_get sample_params sample_nacked = (Ok (Some false), sample_nacked) /\
  ack_get sample_params sample_posted = (Ok None, sample_posted).
Proof.
  pose proof (@ack_get_unset_missing_stored example_runtime example_platform
                sample_params "blindTest" initial_state eq_refl) as (Hunset & Hmissing & _).
  pose proof (@ack_get_unset_missing_stored example_runtime example_platform
                sample_params "blindTest" sample_acked eq_refl) as (_ & _ & Hyes & _).
  pose proof (@ack_get_unset_missing_stored example_runtime example_platform
                sample_params "blindTest" sample_nacked eq_refl) as (_ & _ & Hno & _).
  pose proof (@ack_get_unset_missing_stored example_runtime example_platform
                sample_params "blindTest" sample_posted eq_refl) as (_ & _ & Hnull & _).
  split; [|split; [|split; [|split]]].
  - apply (Hunset sample_params sample_file [sample_get; sample_post]);
      [reflexivity | reflexivity | repeat constructor; discriminate].
  - apply Hmissing. reflexivity.
  - exact (Hyes _ eq_refl).
  - exact (Hno _ eq_refl).
  - exact (Hnull _ eq_refl).
Defined.

(** ** Reading a consignment back *)

Example base64_readme :
  base64_encode (bytes_of_string ("consignment binary data" ++ String (ascii_of_nat 10) ""))
  = "Y29uc2lnbm1lbnQgYmluYXJ5IGRhdGEK".
Proof. reflexivity. Qed.

Section ReadBack.
Context `{JSRuntime} `{Platform}.

Lemma holds_consignment_step (rid : string) (bytes : list byte) (txid : string)
    (vout : option json) (sa : option string) (req : request) (st : state) :
  holds_consignment rid bytes txid vout sa st ->
  no_collision bytes req ->
  holds_consignment rid bytes txid vout sa (snd (handle_request req st)).
Proof.
  intros (c & Hsel & Hname & Htxid & Hvout & Hsa & Hfile) Hreq.
  destruct (handle_request_step req st) as (Htable & Hdir & _).
  destruct (table_step_record _ rid _ _ c Htable Hsel)
    as (c' & Hsel' & _ & Hname' & Htxid' & Hvout' & Hsa').
  exists c'. repeat split; try congruence.
  destruct Hdir as [|g Hg]; [exact Hfile|].
  destruct (decide (genHash (File.content g) = genHash bytes)) as [Heq|Hne].
  - rewrite Heq, (Hreq g Hg Heq). apply lookup_insert_eq.
  - now rewrite lookup_insert_ne.
Qed.

Lemma holds_consignment_run (rid : string) (bytes : list byte) (txid : string)
    (vout : option json) (sa : option string) (reqs : list request) (st : state) :
  holds_consignment rid bytes txid vout sa st ->
  Forall (no_collision bytes) reqs ->
  holds_consignment rid bytes txid vout sa (run reqs st).
Proof.
  revert st. induction reqs as [|req reqs IH]; intros st Hst Hreqs; [exact Hst|].
  inversion Hreqs as [|? ? Hreq Hrest]; subst. simpl.
  apply IH; [|exact Hrest]. now apply holds_consignment_step.
Qed.

Lemma consignment_get_unknown (p : params) (rid : string) (st : state) :
  getRecipientIDParam p = Ok rid ->
  select_consignment rid (consignments st) = None ->
  consignment_get p st = (Throw (NotFoundConsignment p), st).
Proof.
  intros Hrid Hnone. unfold consignment_get, bind.
  now rewrite (getConsignmentOrFail_unknown p rid st Hrid Hnone).
Qed.

End ReadBack.

(** C5: once a [consignment.post] with payload [P], txid [t], optional vout
    and optional sender amount has answered [true] for a recipient, a later
    [consignment.get] for that recipient (after any calls whose uploads do
    not collide with the digest of [P]) returns the Base64 text of [P],
    which decodes to [P], with [t], the vout as the column stores it and the
    sender amount; for a recipient without a record it fails with
    [NotFoundConsignment]. *)
Theorem consignment_get_returns_upload `{JSRuntime} `{Platform}
    (p q : params) (f : File.t) (rid txid : string) (vout : option json)
    (reqs : list request) (st : state) :
  getRecipientIDParam q = Ok rid ->
  getTxidParam q = Ok txid ->
  getVoutParam q = Ok vout ->
  fst (consignment_post q (Some f) (stage (Some f) st)) = Ok true ->
  (forall d, getSenderAmountParam q = Some d ->
             JSON_stringify d <> "" /\ JSON_parse (JSON_stringify d) = Some d) ->
  Forall (no_collision (File.content f)) reqs ->
  getRecipientIDParam p = Ok rid ->
  let st' := run reqs (snd (consignment_post q (Some f) (stage (Some f) st))) in
  consignment_get p st'
  = (Ok (ConsignmentGetRes.mk (base64_encode (File.content f)) txid
           (stored_vout vout) (getSenderAmountParam q)), st') /\
  base64_decode (base64_encode (File.content f)) = Some (File.content f) /\
  (forall p0 rid0 st0,
     getRecipientIDParam p0 = Ok rid0 ->
     select_consignment rid0 (consignments st0) = None ->
     consignment_get p0 st0 = (Throw (NotFoundConsignment p0), st0)).
Proof.
  intros Hrid Htxid Hvout Htrue Hjson Hreqs Hp st'.
  split; [|split; [apply base64_decode_encode|apply consignment_get_unknown]].
  destruct (consignment_post_fresh q f st Htrue)
    as (rid0 & txid0 & vout0 & Hparams & Hfresh & Hst1).
  apply consignment_post_params_inv in Hparams as (Hrid0 & Htxid0 & Hvout0).
  assert (rid0 = rid) as -> by congruence.
  assert (txid0 = txid) as -> by congruence.
  assert (vout0 = vout) as -> by congruence.
  assert (Hholds : holds_consignment rid (File.content f) txid (stored_vout vout)
                     (option_map JSON_stringify (getSenderAmountParam q)) st').
  { subst st'. apply holds_consignment_run; [|exact Hreqs]. rewrite Hst1.
    eexists. split; [cbn [set_consignments consignments]; now apply select_new_row|].
    repeat split. simpl. apply lookup_insert_eq. }
  destruct Hholds as (c & Hsel & Hname & Hctxid & Hcvout & Hsa & Hfile).
  unfold consignment_get, bind.
  rewrite (getConsignmentOrFail_found p rid c st' Hp Hsel).
  unfold readFileSync. cbn [files]. rewrite Hname, Hfile, Hsa, Hctxid, Hcvout.
  destruct (getSenderAmountParam q) as [d|] eqn:Hd; [|reflexivity].
  destruct (Hjson d eq_refl) as [Hne Hparse]. cbn [option_map truthy].
  destruct (String.eqb_spec (JSON_stringify d) "") as [Hempty|_]; [contradiction|].
  cbn [negb]. now rewrite Hparse.
Qed.

(** The payload "X" is posted with a vout and a sender amount; it is then
    acknowledged and an attachment "Y" is posted before the payload is read
    back. *)
Lemma consignment_get_returns_upload_witness :
  let st' := @run example_runtime example_platform
               [sample_ack_post true; other_media_post]
               (snd (@consignment_post example_runtime example_platform full_params
                       (Some sample_file) (stage (Some sample_file) initial_state))) in
  @consignment_get example_runtime sample_params st'
  = (Ok (ConsignmentGetRes.mk "WA==" "t1" (Some (JNum (S754_finite false 1 0)))
           (Some (JObj []))), st') /\
  base64_decode "WA==" = Some (bytes_of_string "X").
Proof.
  pose proof (@consignment_get_returns_upload example_runtime example_platform
                sample_params full_params sample_file "blindTest" "t1" (Some (JStr "1"))
                [sample_ack_post true; other_media_post] initial_state
                eq_refl eq_refl eq_refl eq_refl) as Hget.
  cbn zeta in Hget.
  destruct Hget as (Hres & Hdec & _).
  - intros d [= <-]. split; [discriminate|reflexivity].
  - repeat constructor.
    + intros g Hg. discriminate Hg.
    + intros g [= <-] Hhash. discriminate Hhash.
  - reflexivity.
  - split; [exact Hres|exact Hdec].
Defined.

(** ** Content addressing *)

Section ContentAddressing.
Context `{JSRuntime} `{Platform}.

Lemma content_addressed_empty : content_addressed (∅ : gmap string (list byte)).
Proof. intros name bytes Hlookup. now rewrite lookup_empty in Hlookup. Qed.

Lemma dir_step_content_addressed (file : option File.t) (fs fs' : gmap string (list byte)) :
  content_addressed fs -> dir_step file fs fs' -> content_addressed fs'.
Proof.
  intros Hca [|g _]; [exact Hca|].
  intros name bytes Hlookup.
  destruct (decide (genHash (File.content g) = name)) as [<-|Hne].
  - rewrite lookup_insert_eq in Hlookup. congruence.
  - rewrite lookup_insert_ne in Hlookup by exact Hne. now apply Hca.
Qed.

Lemma consignmentDir_addressed_run (reqs : list request) (st : state) :
  content_addressed (consignmentDir st) ->
  content_addressed (consignmentDir (run reqs st)).
Proof.
  revert st. induction reqs as [|req reqs IH]; intros st Hc; [exact Hc|].
  simpl. destruct (handle_request_step req st) as (_ & Hcd & _).
  apply IH. now apply (dir_step_content_addressed _ _ _ Hc Hcd).
Qed.

Lemma mediaDir_addressed_run (reqs : list request) (st : state) :
  content_addressed (mediaDir st) ->
  content_addressed (mediaDir (run reqs st)).
Proof.
  revert st. induction reqs as [|req reqs IH]; intros st Hm; [exact Hm|].
  simpl. destruct (handle_request_step req st) as (_ & _ & Hmd & _).
  apply IH. now apply (dir_step_content_addressed _ _ _ Hm Hmd).
Qed.

(** In a content-addressed directory a payload has one file at most, and
    exactly one once it is stored under its digest. *)
Lemma copies_one (bytes : list byte) (fs : gmap string (list byte)) :
  content_addressed fs ->
  fs !! genHash bytes = Some bytes ->
  copies bytes fs = 1.
Proof.
  intros Hca Hstored. unfold copies.
  assert (Hfilter : filter (fun entry : string * list byte => entry.2 = bytes) fs
                    = {[genHash bytes := bytes]}).
  { apply map_eq. intros name. apply option_eq. intros found.
    rewrite map_lookup_filter_Some, lookup_singleton_Some. simpl. split.
    - intros [Hlookup ->]. split; [|reflexivity]. symmetry. now apply Hca.
    - intros [<- <-]. now split. }
  rewrite Hfilter. apply map_size_singleton.
Qed.

Lemma record_persists_run (rid : string) (c : Consignment.t) (reqs : list request)
    (st : state) :
  select_consignment rid (consignments st) = Some c ->
  exists c', select_consignment rid (consignments (run reqs st)) = Some c' /\
             Consignment.filename c' = Consignment.filename c.
Proof.
  revert st c. induction reqs as [|req reqs IH]; intros st c Hsel;
    [exists c; now split|].
  simpl. destruct (handle_request_step req st) as (Htable & _).
  destruct (table_step_record _ rid _ _ c Htable Hsel) as (c1 & Hsel1 & _ & Hname1 & _).
  destruct (IH _ c1 Hsel1) as (c' & Hsel' & Hname'). exists c'. split; congruence.
Qed.

Lemma media_step_find (aid : string) (m : Media.t) (rows rows' : list Media.t) :
  media_step rows rows' ->
  List.find (has_attachment aid) rows = Some m ->
  List.find (has_attachment aid) rows' = Some m.
Proof.
  intros [->|[m' ->]] Hfind; [exact Hfind|]. now apply find_app_some.
Qed.

Lemma media_persists_run (aid : string) (m : Media.t) (reqs : list request) (st : state) :
  List.find (has_attachment aid) (media st) = Some m ->
  List.find (has_attachment aid) (media (run reqs st)) = Some m.
Proof.
  revert st. induction reqs as [|req reqs IH]; intros st Hfind; [exact Hfind|].
  simpl. apply IH. destruct (handle_request_step req st) as (_ & _ & _ & Hmedia).
  now apply (media_step_find aid m _ _ Hmedia).
Qed.

(** Two fresh consignment posts of one payload, any calls in between. *)
Lemma consignment_posts_share_file (reqs : list request) (st : state)
    (p1 p2 : params) (f1 f2 : File.t) (r1 r2 : string) :
  content_addressed (consignmentDir st) ->
  getRecipientIDParam p1 = Ok r1 ->
  getRecipientIDParam p2 = Ok r2 ->
  File.content f2 = File.content f1 ->
  fst (consignment_post p1 (Some f1) (stage (Some f1) st)) = Ok true ->
  let st1 := run reqs (snd (consignment_post p1 (Some f1) (stage (Some f1) st))) in
  fst (consignment_post p2 (Some f2) (stage (Some f2) st1)) = Ok true ->
  let st2 := snd (consignment_post p2 (Some f2) (stage (Some f2) st1)) in
  exists c1 c2,
    select_consignment r1 (consignments st2) = Some c1 /\
    select_consignment r2 (consignments st2) = Some c2 /\
    Consignment.filename c1 = genHash (File.content f1) /\
    Consignment.filename c2 = genHash (File.content f1) /\
    consignmentDir st2 !! genHash (File.content f1) = Some (File.content f1) /\
    copies (File.content f1) (consignmentDir st2) = 1.
Proof.
  intros Hca Hr1 Hr2 Hsame Hfirst st1 Hsecond st2.
  destruct (consignment_post_fresh p1 f1 st Hfirst)
    as (rid1 & txid1 & vout1 & Hparams1 & Hfresh1 & Hst1).
  apply consignment_post_params_inv in Hparams1 as (Hrid1 & _ & _).
  assert (rid1 = r1) as -> by congruence.
  destruct (consignment_post_fresh p2 f2 st1 Hsecond)
    as (rid2 & txid2 & vout2 & Hparams2 & Hfresh2 & Hst2).
  apply consignment_post_params_inv in Hparams2 as (Hrid2 & _ & _).
  assert (rid2 = r2) as -> by congruence.
  assert (Hca1 : content_addressed (consignmentDir st1)).
  { subst st1. apply consignmentDir_addressed_run.
    destruct (consignment_post_step p1 (Some f1) st) as (_ & Hdir & _).
    now apply (dir_step_content_addressed _ _ _ Hca Hdir). }
  assert (Hca2 : content_addressed (consignmentDir st2)).
  { subst st2. destruct (consignment_post_step p2 (Some f2) st1) as (_ & Hdir & _).
    now apply (dir_step_content_addressed _ _ _ Hca1 Hdir). }
  assert (Hsel1 : exists c1, select_consignment r1 (consignments st1) = Some c1 /\
                             Consignment.filename c1 = genHash (File.content f1)).
  { subst st1. rewrite Hst1.
    pose proof (select_new_row p1 r1 (genHash (File.content f1)) txid1 vout1 _ Hfresh1)
      as Hnew.
    destruct (record_persists_run r1 _ reqs
                (set_consignments
                   (consignments st ++
                      [new_row p1 r1 (genHash (File.content f1)) txid1 vout1])
                   (store ConsignmentDir (genHash (File.content f1)) (File.content f1)
                      (unstage (File.filename f1) (stage (Some f1) st)))) Hnew)
      as (c1 & Hc1 & Hname1).
    exists c1. split; [exact Hc1|exact Hname1]. }
  destruct Hsel1 as (c1 & Hc1 & Hname1).
  assert (Hstored : consignmentDir st2 !! genHash (File.content f1) = Some (File.content f1)).
  { subst st2. rewrite Hst2, Hsame. simpl. apply lookup_insert_eq. }
  exists c1. eexists. subst st2. rewrite Hst2 in *.
  cbn [set_consignments consignments].
  split; [now apply select_app_some|].
  split; [now apply select_new_row|].
  split; [exact Hname1|]. split; [cbn; now rewrite Hsame|].
  split; [exact Hstored|]. now apply copies_one.
Qed.

(** The same for two fresh media posts. *)
Lemma media_posts_share_file (reqs : list request) (st : state)
    (p1 p2 : params) (f1 f2 : File.t) (a1 a2 : string) :
  content_addressed (mediaDir st) ->
  getAttachmentIDParam p1 = Ok a1 ->
  getAttachmentIDParam p2 = Ok a2 ->
  File.content f2 = File.content f1 ->
  fst (media_post p1 (Some f1) (stage (Some f1) st)) = Ok true ->
  let st1 := run reqs (snd (media_post p1 (Some f1) (stage (Some f1) st))) in
  fst (media_post p2 (Some f2) (stage (Some f2) st1)) = Ok true ->
  let st2 := snd (media_post p2 (Some f2) (stage (Some f2) st1)) in
  exists m1 m2,
    List.find (has_attachment a1) (media st2) = Some m1 /\
    List.find (has_attachment a2) (media st2) = Some m2 /\
    Media.filename m1 = genHash (File.content f1) /\
    Media.filename m2 = genHash (File.content f1) /\
    mediaDir st2 !! genHash (File.content f1) = Some (File.content f1) /\
    copies (File.content f1) (mediaDir st2) = 1.
Proof.
  intros Hca Ha1 Ha2 Hsame Hfirst st1 Hsecond st2.
  destruct (media_post_fresh p1 f1 st Hfirst) as (aid1 & Haid1 & Hfresh1 & Hst1).
  assert (aid1 = a1) as -> by congruence.
  destruct (media_post_fresh p2 f2 st1 Hsecond) as (aid2 & Haid2 & Hfresh2 & Hst2).
  assert (aid2 = a2) as -> by congruence.
  assert (Hca1 : content_addressed (mediaDir st1)).
  { subst st1. apply mediaDir_addressed_run.
    destruct (media_post_step p1 (Some f1) st) as (_ & _ & Hdir & _).
    now apply (dir_step_content_addressed _ _ _ Hca Hdir). }
  assert (Hca2 : content_addressed (mediaDir st2)).
  { subst st2. destruct (media_post_step p2 (Some f2) st1) as (_ & _ & Hdir & _).
    now apply (dir_step_content_addressed _ _ _ Hca1 Hdir). }
  assert (Hfind1 : List.find (has_attachment a1) (media st1)
                   = Some (Media.mk a1 (genHash (File.content f1)))).
  { subst st1. apply media_persists_run. rewrite Hst1. cbn [set_media media].
    rewrite (find_app_none _ _ _ Hfresh1). simpl. unfold has_attachment. simpl.
    now rewrite String.eqb_refl. }
  assert (Hstored : mediaDir st2 !! genHash (File.content f1) = Some (File.content f1)).
  { subst st2. rewrite Hst2, Hsame. simpl. apply lookup_insert_eq. }
  exists (Media.mk a1 (genHash (File.content f1))),
         (Media.mk a2 (genHash (File.content f1))).
  subst st2. rewrite Hst2 in *. cbn [set_media media].
  split; [now apply find_app_some|].
  split.
  { rewrite (find_app_none _ _ _ Hfresh2). simpl. unfold has_attachment. simpl.
    now rewrite String.eqb_refl, Hsame. }
  split; [reflexivity|]. split; [reflexivity|].
  split; [exact Hstored|]. now apply copies_one.
Qed.

End ContentAddressing.

(** C6, as the code has it: every file of the two permanent directories is
    named by the digest of its bytes, in every state reached from a store
    where that holds (the empty store to begin with); and two fresh uploads
    of one payload through the same method, whichever identifiers they bind
    and whatever calls come in between, leave both records naming one file
    of that method's directory, the only one there with these bytes.  The
    two directories are separate: nothing is shared between a consignment
    and an attachment. *)
Theorem content_addressed_per_directory `{JSRuntime} `{Platform}
    (reqs : list request) (st : state) :
  content_addressed (consignmentDir st) ->
  content_addressed (mediaDir st) ->
  (content_addressed (consignmentDir (run reqs st)) /\
   content_addressed (mediaDir (run reqs st))) /\
  (forall p1 p2 f1 f2 r1 r2,
     getRecipientIDParam p1 = Ok r1 ->
     getRecipientIDParam p2 = Ok r2 ->
     File.content f2 = File.content f1 ->
     fst (consignment_post p1 (Some f1) (stage (Some f1) st)) = Ok true ->
     let st1 := run reqs (snd (consignment_post p1 (Some f1) (stage (Some f1) st))) in
     fst (consignment_post p2 (Some f2) (stage (Some f2) st1)) = Ok true ->
     let st2 := snd (consignment_post p2 (Some f2) (stage (Some f2) st1)) in
     exists c1 c2,
       select_consignment r1 (consignments st2) = Some c1 /\
       select_consignment r2 (consignments st2) = Some c2 /\
       Consignment.filename c1 = genHash (File.content f1) /\
       Consignment.filename c2 = genHash (File.content f1) /\
       consignmentDir st2 !! genHash (File.content f1) = Some (File.content f1) /\
       copies (File.content f1) (consignmentDir st2) = 1) /\
  (forall p1 p2 f1 f2 a1 a2,
     getAttachmentIDParam p1 = Ok a1 ->
     getAttachmentIDParam p2 = Ok a2 ->
     File.content f2 = File.content f1 ->
     fst (media_post p1 (Some f1) (stage (Some f1) st)) = Ok true ->
     let st1 := run reqs (snd (media_post p1 (Some f1) (stage (Some f1) st))) in
     fst (media_post p2 (Some f2) (stage (Some f2) st1)) = Ok true ->
     let st2 := snd (media_post p2 (Some f2) (stage (Some f2) st1)) in
     exists m1 m2,
       List.find (has_attachment a1) (media st2) = Some m1 /\
       List.find (has_attachment a2) (media st2) = Some m2 /\
       Media.filename m1 = genHash (File.content f1) /\
       Media.filename m2 = genHash (File.content f1) /\
       mediaDir st2 !! genHash (File.content f1) = Some (File.content f1) /\
       copies (File.content f1) (mediaDir st2) = 1).
Proof.
  intros Hc Hm. split; [|split].
  - split; [now apply consignmentDir_addressed_run|now apply mediaDir_addressed_run].
  - intros p1 p2 f1 f2 r1 r2 Hr1 Hr2 Hsame Hfirst st1 Hsecond st2.
    now apply (consignment_posts_share_file reqs st p1 p2 f1 f2 r1 r2).
  - intros p1 p2 f1 f2 a1 a2 Ha1 Ha2 Hsame Hfirst st1 Hsecond st2.
    now apply (media_posts_share_file reqs st p1 p2 f1 f2 a1 a2).
Qed.


(** Two recipients receive the payload "X", with an acknowledgment in
    between. *)
Lemma content_addressed_per_directory_witness :
  let st1 := @run example_runtime example_platform [sample_ack_post true]
               (snd (@consignment_post example_runtime example_platform sample_params
                       (Some sample_file) (stage (Some sample_file) initial_state))) in
  let st2 := snd (@consignment_post example_runtime example_platform second_params
                    (Some sample_file_again) (stage (Some sample_file_again) st1)) in
  exists c1 c2,
    select_consignment "blindTest" (consignments st2) = Some c1 /\
    select_consignment "blindTest2" (consignments st2) = Some c2 /\
    Consignment.filename c1 = "WA==" /\
    Consignment.filename c2 = "WA==" /\
    consignmentDir st2 !! "WA==" = Some (bytes_of_string "X") /\
    copies (bytes_of_string "X") (consignmentDir st2) = 1.
Proof.
  assert (Hempty : @content_addressed example_platform ∅).
  { intros name bytes Hlookup. rewrite lookup_empty in Hlookup. discriminate Hlookup. }
  destruct (@content_addressed_per_directory example_runtime example_platform
              [sample_ack_post true] initial_state Hempty Hempty) as (_ & Hshare & _).
  apply (Hshare sample_params second_params sample_file sample_file_again
           "blindTest" "blindTest2"); reflexivity.
Defined.

(** C6, as stated, fails across the two methods: the payload "X" posted
    once as a consignment and once as an attachment is answered [true] both
    times, and the store then holds two permanent files with these bytes,
    one in each directory. *)
Lemma same_payload_two_permanent_files :
  fst (@handle_request example_runtime example_platform sample_post initial_state)
  = Some (Ok (VBool true)) /\
  fst (@handle_request example_runtime example_platform sample_media_post
         (snd (@handle_request example_runtime example_platform sample_post initial_state)))
  = Some (Ok (VBool true)) /\
  consignmentDir sample_store !! "WA==" = Some (bytes_of_string "X") /\
  mediaDir sample_store !! "WA==" = Some (bytes_of_string "X") /\
  permanent_copies (bytes_of_string "X") sample_store = 2.
Proof. vm_compute. repeat split; reflexivity. Qed.

(** ** Parameter extraction *)

(** C8, as stated, fails in three places: a [sender_amount] that is
    present with the wrong shape (a string) is read exactly like an omitted
    one, no failure being raised; with a container that is not a dictionary
    (an array) the optional extractors answer absent, not a [Missing]
    failure; and a [vout] of the wrong primitive type, a boolean, is
    returned instead of being refused. *)
Lemma optional_fields_never_missing_or_invalid :
  field "sender_amount" bad_amount_params = Some (JStr "abc") /\
  dictionary (JStr "abc") = None /\
  getSenderAmountParam bad_amount_params = None /\
  getSenderAmountParam bad_amount_params = getSenderAmountParam sample_params /\
  isDictionary (Some (JArr [])) = false /\
  @getVoutParam example_runtime (Some (JArr [])) = Ok None /\
  getSenderAmountParam (Some (JArr [])) = None /\
  @getVoutParam example_runtime (vout_params (JBool true)) = Ok (Some (JBool true)).
Proof. repeat split; reflexivity. Qed.

(** *** The example runtime keeps the promises of the numeric-string grammar *)

Lemma is_digit_not_dot (c : ascii) : is_digit c = true -> Ascii.eqb c "." = false.
Proof.
  destruct (Ascii.eqb_spec c ".") as [->|Hne]; [|reflexivity].
  intros Hdigit. vm_compute in Hdigit. discriminate.
Qed.

Lemma decimal_numeral_step (c : ascii) (rest : string) (acc : N) :
  decimal_numeral (String c rest) acc
  = if is_digit c then decimal_numeral rest (acc * 10 + (N_of_ascii c - 48))%N else None.
Proof. reflexivity. Qed.

Lemma decimal_numeral_split (s : string) (acc n : N) :
  decimal_numeral s acc = Some n -> split_dot s = (s, None).
Proof.
  revert acc. induction s as [|c rest IH]; intros acc; [reflexivity|].
  rewrite decimal_numeral_step. destruct (is_digit c) eqn:Hdigit; [|discriminate].
  intros Hrest. simpl. rewrite (is_digit_not_dot c Hdigit).
  now rewrite (IH _ Hrest).
Qed.

Lemma all_digits_decimal (s : string) (acc : N) :
  all_digits s = true -> exists n, decimal_numeral s acc = Some n.
Proof.
  revert acc. induction s as [|c rest IH]; intros acc; [now exists acc|].
  simpl all_digits. rewrite decimal_numeral_step.
  destruct (is_digit c); [|discriminate]. simpl. apply IH.
Qed.

Lemma decimal_numeral_nonzero (s : string) (acc n : N) :
  decimal_numeral s acc = Some n ->
  acc <> 0%N \/ all_zeros s = false ->
  n <> 0%N.
Proof.
  revert acc. induction s as [|c rest IH]; intros acc.
  - simpl. intros [= <-] [Hacc|Hzeros]; [exact Hacc|discriminate].
  - rewrite decimal_numeral_step. destruct (is_digit c) eqn:Hdigit; [|discriminate].
    intros Hrest Hcase. apply (IH _ Hrest).
    unfold is_digit in Hdigit. apply andb_true_iff in Hdigit as [Hlow Hhigh].
    apply N.leb_le in Hlow.
    destruct Hcase as [Hacc|Hzeros]; [left; lia|].
    simpl in Hzeros. apply andb_false_iff in Hzeros as [Hc|Hz]; [|now right].
    apply N.eqb_neq in Hc. left. lia.
Qed.

Lemma decimal_numeral_bound (s : string) (acc n : N) :
  decimal_numeral s acc = Some n ->
  (n < (acc + 1) * 10 ^ N.of_nat (String.length s))%N.
Proof.
  revert acc. induction s as [|c rest IH]; intros acc.
  - simpl. intros [= <-]. lia.
  - rewrite decimal_numeral_step. destruct (is_digit c) eqn:Hdigit; [|discriminate].
    intros Hrest. apply IH in Hrest.
    unfold is_digit in Hdigit. apply andb_true_iff in Hdigit as [Hlow Hhigh].
    apply N.leb_le in Hlow, Hhigh.
    cbn [String.length]. rewrite Nat2N.inj_succ, N.pow_succ_r'.
    set (k := (10 ^ N.of_nat (String.length rest))%N) in *.
    nia.
Qed.

Lemma scaled_fraction_range (f : N) (places : nat) :
  (0 < f < 10 ^ N.of_nat places)%N ->
  (0 < scaled_fraction f places < 2 ^ 64)%N.
Proof.
  intros [Hpos Hlt]. unfold scaled_fraction.
  set (d := (10 ^ N.of_nat places)%N) in *.
  change (2 ^ 64)%N with 18446744073709551616%N.
  assert (Hd : (0 < d)%N) by lia.
  assert (Hq : (f * 18446744073709551616 / d < 18446744073709551616)%N).
  { apply N.Div0.div_lt_upper_bound. nia. }
  destruct (N.eqb_spec ((f * 18446744073709551616) mod d) 0) as [Hzero|Hrest].
  - split; [|exact Hq].
    pose proof (N.div_mod (f * 18446744073709551616) d ltac:(lia)) as Hdiv.
    rewrite Hzero in Hdiv.
    destruct (N.eq_dec (f * 18446744073709551616 / d)%N 0%N) as [Hz|Hnz]; [|lia].
    rewrite Hz in Hdiv. lia.
  - set (q := (f * 18446744073709551616 / d)%N) in *.
    pose proof (N.div_mod q 2 ltac:(lia)) as Hdiv.
    pose proof (N.mod_lt q 2 ltac:(lia)) as Hmod.
    clearbody q. clear Hrest.
    revert Hdiv Hmod. generalize (q / 2)%N (q mod 2)%N. intros half bit Hdiv Hmod.
    split; lia.
Qed.

Lemma Number_isInteger_double_of_N (n : N) : Number_isInteger (double_of_N n) = true.
Proof. now destruct n. Qed.

Lemma Number_isInteger_scaled (m : N) :
  (m mod 2 ^ 64 <> 0)%N -> Number_isInteger (double_of_scaled m (-64)) = false.
Proof.
  intros Hmod. destruct m as [|p]; [now rewrite N.Div0.mod_0_l in Hmod|].
  unfold double_of_scaled, Number_isInteger.
  change (0 <=? -64)%Z with false. cbv iota.
  apply Z.eqb_neq. intros Hzero. apply Hmod.
  change (- -64)%Z with (Z.of_N 64) in Hzero.
  change 2%Z with (Z.of_N 2) in Hzero. rewrite <- N2Z.inj_pow in Hzero.
  change (Z.pos p) with (Z.of_N (N.pos p)) in Hzero.
  rewrite <- N2Z.inj_mod in Hzero. lia.
Qed.

Lemma not_numeric_first (c : ascii) :
  may_start_numeral c = false -> is_digit c = false /\ Ascii.eqb c "." = false.
Proof.
  unfold may_start_numeral. intros Hc.
  repeat (apply orb_false_iff in Hc as [Hc ?]). now split.
Qed.

Lemma example_numeric_strings : @NumericStrings example_runtime.
Proof.
  split.
  - intros [|c rest]; [discriminate|]. simpl not_numeric. intros Hc.
    apply negb_true_iff, not_numeric_first in Hc as [Hdigit Hdot].
    simpl StringToNumber. unfold example_StringToNumber.
    rewrite decimal_numeral_step, Hdigit.
    unfold numeral_parts. simpl split_dot. rewrite Hdot.
    destruct (split_dot rest) as [whole fraction]. simpl all_digits. now rewrite Hdigit.
  - intros s whole fraction Hparts _. simpl StringToNumber. unfold example_StringToNumber.
    destruct (decimal_numeral s 0) as [n|] eqn:Hs.
    + rewrite Number_isInteger_double_of_N.
      unfold numeral_parts in Hparts. rewrite (decimal_numeral_split s 0 n Hs) in Hparts.
      destruct (_ && _) in Hparts; [|discriminate]. now injection Hparts as _ <-.
    + rewrite Hparts.
      unfold numeral_parts in Hparts. destruct (split_dot s) as [w f].
      destruct (all_digits w && _ && _) eqn:Hshape in Hparts; [|discriminate].
      injection Hparts as -> Hf.
      apply andb_true_iff in Hshape as [Hshape _].
      apply andb_true_iff in Hshape as [Hw Hfd]. rewrite Hf in Hfd.
      destruct (all_digits_decimal whole 0 Hw) as [wn ->].
      destruct (all_digits_decimal fraction 0 Hfd) as [fn Hfn]. rewrite Hfn.
      destruct (all_zeros fraction) eqn:Hzeros; [apply Number_isInteger_double_of_N|].
      apply Number_isInteger_scaled.
      pose proof (decimal_numeral_nonzero fraction 0 fn Hfn (or_intror Hzeros)) as Hnz.
      pose proof (decimal_numeral_bound fraction 0 fn Hfn) as Hbound.
      pose proof (scaled_fraction_range fn (String.length fraction) ltac:(lia)) as Hrange.
      rewrite N.add_comm, N.Div0.mod_add. rewrite N.mod_small; lia.
Qed.

(** C8, as the code has it: the four required extractors (recipient id,
    attachment id, txid, ack) raise their [Missing] error when the container
    is not a dictionary or lacks the key, their [Invalid] error when the
    member is not a non-empty string (not a boolean, for ack), and else
    return the typed value.  The two optional extractors never raise a
    [Missing] error and answer absent when the member is omitted or the
    container is not a dictionary.  [getVoutParam] raises [InvalidVout]
    when the member is no integer: [null], a number with a fractional part,
    a string whose numeric value is no integer, such as a text that cannot
    begin a numeric literal (as ["abc"]) or a decimal numeral whose
    fraction is not zero (as ["1.5"]); it returns the member as it came
    when it is an integer number or a string whose numeric value is an
    integer.  [getSenderAmountParam] returns the member when it is a
    dictionary and absent in every other case. *)
Theorem extractors_contract `{JSRuntime} `{!NumericStrings} (p : params) :
  getRecipientIDParam p
  = required_field "recipient_id" MissingRecipientID InvalidRecipientID nonempty_string p /\
  getAttachmentIDParam p
  = required_field "attachment_id" MissingAttachmentID InvalidAttachmentID nonempty_string p /\
  getTxidParam p = required_field "txid" MissingTxid InvalidTxid nonempty_string p /\
  getAckParam p = required_field "ack" MissingAck InvalidAck boolean p /\
  getVoutParam p
  = match field "vout" p with
    | None => Ok None
    | Some v =>
        match isNumber v with
        | Ok true => Ok (Some v)
        | Ok false => Throw (InvalidVout p)
        | Throw e => Throw e
        end
    end /\
  (forall n, isNumber (JNum n) = Ok (Number_isInteger n)) /\
  isNumber JNull = Ok false /\
  getSenderAmountParam p
  = match field "sender_amount" p with
    | None => None
    | Some v => dictionary v
    end /\
  (field "vout" p = Some JNull -> getVoutParam p = Throw (InvalidVout p)) /\
  (forall n,
     field "vout" p = Some (JNum n) ->
     getVoutParam p
     = if Number_isInteger n then Ok (Some (JNum n)) else Throw (InvalidVout p)) /\
  (forall s,
     field "vout" p = Some (JStr s) ->
     getVoutParam p
     = if Number_isInteger (StringToNumber s) then Ok (Some (JStr s))
       else Throw (InvalidVout p)) /\
  (forall s,
     field "vout" p = Some (JStr s) ->
     not_numeric s = true ->
     getVoutParam p = Throw (InvalidVout p)) /\
  (forall s whole fraction,
     field "vout" p = Some (JStr s) ->
     numeral_parts s = Some (whole, fraction) ->
     String.length whole + String.length fraction <= 15 ->
     getVoutParam p
     = if all_zeros fraction then Ok (Some (JStr s)) else Throw (InvalidVout p)).
Proof.
  assert (Hstr : forall (err : error) (v : json),
            (if negb (truthy v) || negb (isString v) then Throw err
             else match v with JStr s => Ok s | _ => Throw err end)
            = match nonempty_string v with Some s => Ok s | None => Throw err end).
  { intros err [| b | n | s | items | entries]; simpl;
      try reflexivity; try (now rewrite orb_true_r).
    now destruct (String.eqb s ""). }
  assert (Hnum : forall n, isNumber (JNum n) = Ok (Number_isInteger n)).
  { intros n. unfold isNumber. simpl. now rewrite andb_true_r. }
  assert (Hvout : getVoutParam p
                  = match field "vout" p with
                    | None => Ok None
                    | Some v =>
                        match isNumber v with
                        | Ok true => Ok (Some v)
                        | Ok false => Throw (InvalidVout p)
                        | Throw e => Throw e
                        end
                    end).
  { unfold getVoutParam, field.
    destruct p as [[| b | n | s | items | entries]|]; try reflexivity.
    destruct (obj_get "vout" entries) as [v|]; [|reflexivity].
    now destruct (isNumber v) as [[|]|e]. }
  repeat apply conj.
  - unfold required_field, getRecipientIDParam, field.
    destruct p as [[| b | n | s | items | entries]|]; try reflexivity.
    destruct (obj_get "recipient_id" entries); [apply Hstr|reflexivity].
  - unfold required_field, getAttachmentIDParam, field.
    destruct p as [[| b | n | s | items | entries]|]; try reflexivity.
    destruct (obj_get "attachment_id" entries); [apply Hstr|reflexivity].
  - unfold required_field, getTxidParam, field.
    destruct p as [[| b | n | s | items | entries]|]; try reflexivity.
    destruct (obj_get "txid" entries); [apply Hstr|reflexivity].
  - unfold required_field, getAckParam, field.
    destruct p as [[| b | n | s | items | entries]|]; try reflexivity.
    destruct (obj_get "ack" entries) as [[| b | n | s | items | es]|]; reflexivity.
  - exact Hvout.
  - exact Hnum.
  - reflexivity.
  - unfold getSenderAmountParam, field.
    destruct p as [[| b | n | s | items | entries]|]; try reflexivity.
    destruct (obj_get "sender_amount" entries) as [[| b | n | s | items | es]|]; reflexivity.
  - intros Hfield. now rewrite Hvout, Hfield.
  - intros n Hfield. rewrite Hvout, Hfield, Hnum. now destruct (Number_isInteger n).
  - intros s Hfield. rewrite Hvout, Hfield. unfold isNumber. simpl.
    now destruct (Number_isInteger (StringToNumber s)).
  - intros s Hfield Hshape. rewrite Hvout, Hfield. unfold isNumber. simpl.
    now rewrite (StringToNumber_not_numeric s Hshape).
  - intros s whole fraction Hfield Hparts Hshort. rewrite Hvout, Hfield.
    unfold isNumber. simpl.
    rewrite (StringToNumber_decimal s whole fraction Hparts Hshort).
    now destruct (all_zeros fraction).
Qed.

(** With the example runtime: a [vout] of ["1.5"], of ["abc"], of [null] and
    of the number 1.5 is refused; a [vout] of ["7"], of ["2.0"] and of the
    number 3 is returned as it came. *)
Lemma extractors_contract_witness :
  @getVoutParam example_runtime (vout_params (JStr "1.5"))
  = Throw (InvalidVout (vout_params (JStr "1.5"))) /\
  @getVoutParam example_runtime (vout_params (JStr "abc"))
  = Throw (InvalidVout (vout_params (JStr "abc"))) /\
  @getVoutParam example_runtime (vout_params JNull)
  = Throw (InvalidVout (vout_params JNull)) /\
  @getVoutParam example_runtime (vout_params (JNum (S754_finite false 3 (-1))))
  = Throw (InvalidVout (vout_params (JNum (S754_finite false 3 (-1))))) /\
  @getVoutParam example_runtime (vout_params (JStr "7")) = Ok (Some (JStr "7")) /\
  @getVoutParam example_runtime (vout_params (JStr "2.0")) = Ok (Some (JStr "2.0")) /\
  @getVoutParam example_runtime (vout_params (JNum (S754_finite false 3 0)))
  = Ok (Some (JNum (S754_finite false 3 0))).
Proof.
  pose proof (fun v => @extractors_contract example_runtime example_numeric_strings
                         (vout_params v)) as Hcontract.
  repeat apply conj.
  - destruct (Hcontract (JStr "1.5")) as (_ & _ & _ & _ & _ & _ & _ & _ & _ & _ & _ & _ & Hdec).
    apply (Hdec "1.5" "1" "5"); [reflexivity | reflexivity | simpl; lia].
  - destruct (Hcontract (JStr "abc")) as (_ & _ & _ & _ & _ & _ & _ & _ & _ & _ & _ & Htext & _).
    apply (Htext "abc"); reflexivity.
  - destruct (Hcontract JNull) as (_ & _ & _ & _ & _ & _ & _ & _ & Hnull & _).
    apply Hnull. reflexivity.
  - destruct (Hcontract (JNum (S754_finite false 3 (-1))))
      as (_ & _ & _ & _ & _ & _ & _ & _ & _ & Hnumber & _).
    apply (Hnumber (S754_finite false 3 (-1))). reflexivity.
  - destruct (Hcontract (JStr "7")) as (_ & _ & _ & _ & _ & _ & _ & _ & _ & _ & _ & _ & Hdec).
    apply (Hdec "7" "7" ""); [reflexivity | reflexivity | simpl; lia].
  - destruct (Hcontract (JStr "2.0")) as (_ & _ & _ & _ & _ & _ & _ & _ & _ & _ & _ & _ & Hdec).
    apply (Hdec "2.0" "2" "0"); [reflexivity | reflexivity | simpl; lia].
  - destruct (Hcontract (JNum (S754_finite false 3 0)))
      as (_ & _ & _ & _ & _ & _ & _ & _ & _ & Hnumber & _).
    apply (Hnumber (S754_finite false 3 0)). reflexivity.
Defined.

(** ** The walk-through of the README, end to end *)

Example readme_walkthrough :
  @replies example_runtime example_platform
    [sample_post; sample_get; sample_ack_post true; sample_ack_get;
     sample_ack_post true; sample_ack_post false]
    initial_state
  = [Some (Ok (VBool true));
     Some (Ok (VConsignment (ConsignmentGetRes.mk "WA==" "t1" None None)));
     Some (Ok (VBool true));
     Some (Ok (VAck (Some true)));
     Some (Ok (VBool false));
     Some (Throw (CannotChangeAck (sample_ack_params false)))].
Proof. vm_compute. reflexivity. Qed.

(** An array in the place of [vout] is spread over the parameters of the
    statement: the array of the one string ["5"] passes the integer test
    and the row holds the number 5; the empty array passes it too and
    leaves the statement a value short, so the insert fails. *)
Example array_vout_is_spread :
  @replies example_runtime example_platform
    [mkRequest "consignment.post" (vout_params (JArr [JStr "5"])) (Some sample_file) 0;
     sample_get]
    initial_state
  = [Some (Ok (VBool true));
     Some (Ok (VConsignment
                 (ConsignmentGetRes.mk "WA==" "t1" (Some (JNum (S754_finite false 5 0))) None)))]
  /\
  @replies example_runtime example_platform
    [mkRequest "consignment.post" (vout_params (JArr [])) (Some sample_file) 0]
    initial_state
  = [Some (Throw SqliteBindError)].
Proof. vm_compute. split; reflexivity. Qed.

(** ** Log formatting *)

Lemma string_append_cons (x : ascii) (a b : string) :
  String x a ++ b = String x (a ++ b).
Proof. reflexivity. Qed.



Lemma string_length_append (a b : string) :
  String.length (a ++ b) = String.length a + String.length b.
Proof.
  induction a as [|x a IH]; [reflexivity|].
  rewrite string_append_cons. simpl. now rewrite IH.
Qed.

Lemma substring_head_length (n : nat) (s : string) :
  n <= String.length s -> String.length (String.substring 0 n s) = n.
Proof.
  revert s. induction n as [|n IH]; intros s Hlen.
  - now destruct s.
  - destruct s as [|x s]; simpl in *; [lia|]. rewrite IH; [reflexivity|lia].
Qed.

Lemma substring_head_append (a b : string) :
  String.substring 0 (String.length a) (a ++ b) = a.
Proof.
  induction a as [|x a IH]; [now destruct b|].
  rewrite string_append_cons. simpl. now rewrite IH.
Qed.

(** Taking a head of a head. *)
Lemma substring_head_twice (k n : nat) (s : string) :
  k <= n -> String.substring 0 k (String.substring 0 n s) = String.substring 0 k s.
Proof.
  revert n s. induction k as [|k IH]; intros n s Hk.
  - destruct (String.substring 0 n s), s; reflexivity.
  - destruct n as [|n]; [lia|]. destruct s as [|x s]; simpl; [reflexivity|].
    rewrite IH; [reflexivity|lia].
Qed.

Lemma substring_head_of_append (k : nat) (a b : string) :
  k <= String.length a -> String.substring 0 k (a ++ b) = String.substring 0 k a.
Proof.
  revert a. induction k as [|k IH]; intros a Hk.
  - destruct a, b; reflexivity.
  - destruct a as [|x a]; simpl in Hk; [lia|].
    rewrite string_append_cons. simpl. rewrite IH; [reflexivity|lia].
Qed.

Lemma truncateText_short (content : string) (limit : nat) :
  String.length content <= limit -> truncateText content limit = content.
Proof.
  intros Hlen. unfold truncateText. simpl.
  destruct (String.eqb_spec content "") as [->|_]; [reflexivity|]. simpl.
  now rewrite (proj2 (Nat.leb_le _ _) Hlen).
Qed.

Lemma truncateText_long (content : string) (limit : nat) :
  limit < String.length content ->
  truncateText content limit = String.substring 0 limit content ++ "...".
Proof.
  intros Hlen. unfold truncateText. simpl.
  destruct (String.eqb_spec content "") as [->|_]; [simpl in Hlen; lia|]. simpl.
  now rewrite (proj2 (Nat.leb_gt _ _) Hlen).
Qed.

(** X14: [truncateText] never returns more than [limit + 3] code units,
    keeps the first [limit] code units of its argument, returns a text that
    fits within [limit] unchanged, and truncating its result again changes
    nothing. *)
Theorem truncateText_bounded_idempotent (content : string) (limit : nat) :
  String.length (truncateText content limit) <= limit + 3 /\
  String.substring 0 limit (truncateText content limit)
  = String.substring 0 limit content /\
  (String.length content <= limit -> truncateText content limit = content) /\
  truncateText (truncateText content limit) limit = truncateText content limit.
Proof.
  destruct (Nat.le_gt_cases (String.length content) limit) as [Hshort|Hlong].
  - rewrite (truncateText_short content limit Hshort).
    repeat split; [lia|now rewrite truncateText_short].
  - rewrite (truncateText_long content limit Hlong).
    assert (Hhead : String.length (String.substring 0 limit content) = limit)
      by (apply substring_head_length; lia).
    repeat split.
    + rewrite string_length_append, Hhead. simpl. lia.
    + rewrite substring_head_of_append by lia.
      apply substring_head_twice. lia.
    + intros Hshort. lia.
    + rewrite truncateText_long
        by (rewrite string_length_append, Hhead; simpl; lia).
      f_equal. rewrite <- Hhead at 1. apply substring_head_append.
Qed.

Lemma truncateText_bounded_idempotent_witness :
  truncateText "blindTest" DEFAULT_LIMIT = "blindTest".
Proof.
  apply (proj1 (proj2 (proj2 (truncateText_bounded_idempotent "blindTest" DEFAULT_LIMIT)))).
  vm_compute. lia.
Defined.

Section JoinEntries.
Context `{JSRuntime} `{JSPrinting}.



End JoinEntries.


(** ** One call, in full *)

Section StoreStep.
Context `{JSRuntime} `{Platform}.

Lemma same_store_refl (st : state) : same_store st st.
Proof. repeat split. Qed.

Lemma same_store_stage (file : option File.t) (st : state) :
  same_store st (stage file st).
Proof. destruct file; repeat split. Qed.

Lemma store_step_frame (req : request) (st st1 st' : state) :
  store_step req st st1 -> same_store st1 st' -> store_step req st st'.
Proof.
  intros Hstep (Hc & Hm & Hcd & Hmd).
  destruct Hstep as [(Hc1 & Hm1 & Hcd1 & Hmd1)
                    |f row ? ? ? ? ? Hc1 Hcd1 Hm1 Hmd1
                    |f ? ? Hc1 Hcd1 Hm1 Hmd1
                    |f m ? ? ? ? Hm1 Hmd1 Hc1 Hcd1
                    |rid c v ? ? ? Hc1 Hm1 Hcd1 Hmd1].
  - apply step_nothing. repeat split; congruence.
  - apply (step_consignment req st st' f row); congruence.
  - apply (step_file_only req st st' f); congruence.
  - apply (step_media req st st' f m); congruence.
  - apply (step_ack req st st' rid c v); congruence.
Qed.

Lemma consignment_post_store_step (req : request) (p : params) (st : state) :
  rpc_method req = "consignment.post" ->
  store_step req st (snd (consignment_post p (req_file req) (stage (req_file req) st))).
Proof.
  intros Hname. destruct (req_file req) as [f|] eqn:Hfile.
  2:{ apply step_nothing. simpl. apply same_store_refl. }
  rewrite (consignment_post_staged p f _ _ (stage_lookup f st)).
  replace (consignments (stage (Some f) st)) with (consignments st) by reflexivity.
  destruct (consignment_post_params p) as [[[rid txid] vout]|e];
    [|apply step_nothing; repeat split].
  destruct (select_consignment rid (consignments st)) as [prev|] eqn:Hsel.
  - destruct (String.eqb _ _); apply step_nothing; repeat split.
  - cbn zeta. destruct (sqlite_bindable vout).
    + apply (step_consignment req st _ f
               (new_row p rid (genHash (File.content f)) txid vout));
        try reflexivity; assumption.
    + apply (step_file_only req st _ f); try reflexivity; assumption.
Qed.

Lemma media_post_store_step (req : request) (p : params) (st : state) :
  rpc_method req = "media.post" ->
  store_step req st (snd (media_post p (req_file req) (stage (req_file req) st))).
Proof.
  intros Hname. destruct (req_file req) as [f|] eqn:Hfile.
  2:{ destruct (media_post_no_file p (stage None st)) as [e ->].
      apply step_nothing. apply same_store_refl. }
  rewrite (media_post_staged p f _ _ (stage_lookup f st)).
  replace (media (stage (Some f) st)) with (media st) by reflexivity.
  destruct (getAttachmentIDParam p) as [aid|e]; [|apply step_nothing; repeat split].
  destruct (List.find (has_attachment aid) (media st)) as [prev|] eqn:Hfind.
  - destruct (String.eqb _ _); apply step_nothing; repeat split.
  - apply (step_media req st _ f (Media.mk aid (genHash (File.content f))));
      try reflexivity; assumption.
Qed.

Lemma ack_post_store_step (req : request) (p : params) (st : state) :
  rpc_method req = "ack.post" ->
  store_step req st (snd (ack_post p (stage (req_file req) st))).
Proof.
  intros Hname.
  destruct (stage_frame (req_file req) st) as (Hc & Hm & Hcd & Hmd).
  destruct (ack_post_state p (stage (req_file req) st))
    as [->|(rid & c & v & Hsel & Hack & ->)].
  - apply step_nothing. apply same_store_stage.
  - rewrite Hc in Hsel.
    apply (step_ack req st _ rid c v); try assumption; cbn; congruence.
Qed.

(** Every call changes the tables and the permanent directories in one of
    five ways. *)
Lemma handle_request_store_step (req : request) (st : state) :
  store_step req st (snd (handle_request req st)).
Proof.
  unfold handle_request.
  destruct (parse_params (rpc_params req)) as [q|];
    [|apply step_nothing; apply same_store_stage].
  destruct (logs_params q); [|apply step_nothing; apply same_store_stage].
  cbn [negb].
  assert (Hstep : store_step req st
            (snd (receive (rpc_method req) q (req_file req) (req_uptime req)
                    (stage (req_file req) st)))).
  { unfold receive.
    assert (Hidle : forall s, s = stage (req_file req) st -> store_step req st s).
    { intros s ->. apply step_nothing. apply same_store_stage. }
    destruct (String.eqb_spec (rpc_method req) "server.info");
      [rewrite fmap_M_state; now apply Hidle|].
    destruct (String.eqb_spec (rpc_method req) "consignment.get");
      [rewrite fmap_M_state, consignment_get_state; now apply Hidle|].
    destruct (String.eqb_spec (rpc_method req) "consignment.post");
      [rewrite fmap_M_state; now apply consignment_post_store_step|].
    destruct (String.eqb_spec (rpc_method req) "media.get");
      [rewrite fmap_M_state, media_get_state; now apply Hidle|].
    destruct (String.eqb_spec (rpc_method req) "media.post");
      [rewrite fmap_M_state; now apply media_post_store_step|].
    destruct (String.eqb_spec (rpc_method req) "ack.get");
      [rewrite fmap_M_state, ack_get_state; now apply Hidle|].
    destruct (String.eqb_spec (rpc_method req) "ack.post");
      [rewrite fmap_M_state; now apply ack_post_store_step|].
    now apply Hidle. }
  destruct (receive _ _ _ _ _) as [answer st1]. cbn [snd] in Hstep.
  destruct (logs_response answer); cbn [negb snd]; [|exact Hstep].
  apply (store_step_frame req st st1 _ Hstep).
  destruct (delete_unhandled_frame (req_file req) st1) as (Hc & Hm & Hcd & Hmd).
  repeat split; assumption.
Qed.

End StoreStep.

(** ** Invariants of the store *)

Lemma settle_filenames (rid : string) (v : bool) (rows : list ConsignmentDB.t) :
  map ConsignmentDB.filename (settle rid v rows) = map ConsignmentDB.filename rows.
Proof.
  unfold settle. induction rows as [|row rows IH]; simpl; [reflexivity|].
  rewrite IH. now destruct (has_recipient rid row).
Qed.

Section Invariants.
Context `{JSRuntime} `{Platform}.

Lemma files_present_step (req : request) (st : state) :
  files_present st -> files_present (snd (handle_request req st)).
Proof.
  intros [Hc Hm]. unfold files_present.
  assert (Hkeep : forall (fs : gmap string (list byte)) name bytes other,
            is_Some (fs !! other) -> is_Some (<[name := bytes]> fs !! other)).
  { intros fs name bytes other Hsome. apply lookup_insert_is_Some.
    destruct (decide (name = other)); [now left|now right]. }
  destruct (handle_request_store_step req st)
    as [(Hc1 & Hm1 & Hcd1 & Hmd1)
       |f row _ _ _ _ Hname Hc1 Hcd1 Hm1 Hmd1
       |f _ _ Hc1 Hcd1 Hm1 Hmd1
       |f m _ _ _ Hname Hm1 Hmd1 Hc1 Hcd1
       |rid c v _ _ _ Hc1 Hm1 Hcd1 Hmd1];
    rewrite Hc1, Hm1, Hcd1, Hmd1; try (now split).
  - split; [|exact Hm]. apply Forall_app. split.
    + eapply Forall_impl; [exact Hc|]. intros r Hr. now apply Hkeep.
    + repeat constructor. rewrite Hname. exists (File.content f). apply lookup_insert_eq.
  - split; [|exact Hm]. eapply Forall_impl; [exact Hc|]. intros r Hr. now apply Hkeep.
  - split; [exact Hc|]. apply Forall_app. split.
    + eapply Forall_impl; [exact Hm|]. intros r Hr. now apply Hkeep.
    + repeat constructor. rewrite Hname. exists (File.content f). apply lookup_insert_eq.
  - split; [|exact Hm].
    apply (proj1 (List.Forall_map ConsignmentDB.filename
             (fun name => is_Some (consignmentDir st !! name)) _)).
    rewrite settle_filenames. now apply List.Forall_map.
Qed.

Lemma files_present_run (reqs : list request) (st : state) :
  files_present st -> files_present (run reqs st).
Proof.
  revert st. induction reqs as [|req reqs IH]; intros st Hst; [exact Hst|].
  simpl. apply IH. now apply files_present_step.
Qed.

Lemma record_kept_run (rid : string) (c : Consignment.t) (reqs : list request)
    (st : state) :
  select_consignment rid (consignments st) = Some c ->
  exists c',
    select_consignment rid (consignments (run reqs st)) = Some c' /\
    Consignment.recipientID c' = Consignment.recipientID c /\
    Consignment.filename c' = Consignment.filename c /\
    Consignment.txid c' = Consignment.txid c /\
    Consignment.vout c' = Consignment.vout c /\
    Consignment.sender_amount c' = Consignment.sender_amount c.
Proof.
  revert st c. induction reqs as [|req reqs IH]; intros st c Hsel.
  - exists c. repeat split; trivial.
  - simpl. destruct (handle_request_step req st) as (Htable & _).
    destruct (table_step_record _ rid _ _ c Htable Hsel)
      as (c1 & Hsel1 & Hr1 & Hf1 & Ht1 & Hv1 & Hs1).
    destruct (IH _ c1 Hsel1) as (c' & Hsel' & Hr' & Hf' & Ht' & Hv' & Hs').
    exists c'. repeat split; congruence.
Qed.

Lemma file_kept_step (file : option File.t) (fs fs' : gmap string (list byte))
    (name : string) :
  dir_step file fs fs' -> is_Some (fs !! name) -> is_Some (fs' !! name).
Proof.
  intros [|g _] Hsome; [exact Hsome|]. apply lookup_insert_is_Some.
  destruct (decide (genHash (File.content g) = name)); [now left|now right].
Qed.

Lemma files_kept_run (name : string) (reqs : list request) (st : state) :
  (is_Some (consignmentDir st !! name) ->
   is_Some (consignmentDir (run reqs st) !! name)) /\
  (is_Some (mediaDir st !! name) -> is_Some (mediaDir (run reqs st) !! name)).
Proof.
  revert st. induction reqs as [|req reqs IH]; intros st; [now split|].
  simpl. destruct (handle_request_step req st) as (_ & Hcd & Hmd & _).
  destruct (IH (snd (handle_request req st))) as [IHc IHm].
  split; intros Hsome; [apply IHc|apply IHm]; eapply file_kept_step; eassumption.
Qed.

End Invariants.

(** X6: no call deletes a record or rewrites its identifying columns: a
    consignment record is still there after any sequence of calls, with the
    same recipient id, file name, txid, vout and sender amount (only its
    flag may differ), and a media row is still there unchanged. *)
Theorem records_never_change `{JSRuntime} `{Platform}
    (reqs : list request) (st : state) :
  (forall rid c,
     select_consignment rid (consignments st) = Some c ->
     exists c',
       select_consignment rid (consignments (run reqs st)) = Some c' /\
       Consignment.recipientID c' = Consignment.recipientID c /\
       Consignment.filename c' = Consignment.filename c /\
       Consignment.txid c' = Consignment.txid c /\
       Consignment.vout c' = Consignment.vout c /\
       Consignment.sender_amount c' = Consignment.sender_amount c) /\
  (forall aid m,
     List.find (has_attachment aid) (media st) = Some m ->
     List.find (has_attachment aid) (media (run reqs st)) = Some m).
Proof.
  split.
  - intros rid c. apply record_kept_run.
  - intros aid m. apply media_persists_run.
Qed.

(** The sample record after an acknowledgment, a conflicting post and a
    second attachment. *)
Lemma records_never_change_witness :
  exists c',
    select_consignment "blindTest"
      (consignments (@run example_runtime example_platform
                       [sample_ack_post true;
                        mkRequest "consignment.post" sample_params (Some other_file) 0;
                        other_media_post] sample_store)) = Some c' /\
    Consignment.recipientID c' = "blindTest" /\
    Consignment.filename c' = "WA==" /\
    Consignment.txid c' = "t1" /\
    Consignment.vout c' = None /\
    Consignment.sender_amount c' = None.
Proof.
  apply (proj1 (@records_never_change example_runtime example_platform
                  [sample_ack_post true;
                   mkRequest "consignment.post" sample_params (Some other_file) 0;
                   other_media_post] sample_store) "blindTest" sample_record).
  reflexivity.
Defined.

(** X7: no call removes a permanent file: a name present in the consignment
    directory (in the media directory) is still present there after any
    sequence of calls. *)
Theorem permanent_files_never_removed `{JSRuntime} `{Platform}
    (name : string) (reqs : list request) (st : state) :
  (is_Some (consignmentDir st !! name) ->
   is_Some (consignmentDir (run reqs st) !! name)) /\
  (is_Some (mediaDir st !! name) -> is_Some (mediaDir (run reqs st) !! name)).
Proof. apply files_kept_run. Qed.

Lemma permanent_files_never_removed_witness :
  is_Some (consignmentDir
             (@run example_runtime example_platform
                [sample_ack_post false; other_media_post; sample_post] sample_store)
           !! "WA==").
Proof.
  apply (proj1 (@permanent_files_never_removed example_runtime example_platform "WA=="
                  [sample_ack_post false; other_media_post; sample_post] sample_store)).
  eexists. reflexivity.
Defined.

Lemma select_consignment_row (rid : string) (rows : list ConsignmentDB.t)
    (c : Consignment.t) :
  select_consignment rid rows = Some c ->
  exists row, In row rows /\ ConsignmentDB.filename row = Consignment.filename c.
Proof.
  unfold select_consignment.
  destruct (List.find (has_recipient rid) rows) as [row|] eqn:Hfind; [|discriminate].
  intros [= <-]. exists row. split; [|reflexivity].
  now apply List.find_some in Hfind as [Hin _].
Qed.

(** X8: every row names a file that exists: if that holds of a store (it
    does of the empty one) it holds after any sequence of calls; there
    [media.get] for a known attachment always returns the Base64 text of the
    stored file, and [consignment.get] for a known recipient finds its file
    (it never fails for a missing file). *)
Theorem known_records_are_readable `{JSRuntime} `{Platform}
    (reqs : list request) (st : state) :
  files_present st ->
  files_present (run reqs st) /\
  (forall p aid m,
     getAttachmentIDParam p = Ok aid ->
     List.find (has_attachment aid) (media (run reqs st)) = Some m ->
     exists bytes,
       mediaDir (run reqs st) !! Media.filename m = Some bytes /\
       media_get p (run reqs st) = (Ok (base64_encode bytes), run reqs st)) /\
  (forall p rid c,
     getRecipientIDParam p = Ok rid ->
     select_consignment rid (consignments (run reqs st)) = Some c ->
     exists bytes,
       consignmentDir (run reqs st) !! Consignment.filename c = Some bytes /\
       forall d n, fst (consignment_get p (run reqs st)) <> Throw (FsNoEntry d n)).
Proof.
  intros Hst. pose proof (files_present_run reqs st Hst) as Hrun.
  split; [exact Hrun|]. destruct Hrun as [Hc Hm]. set (st' := run reqs st) in *.
  split.
  - intros p aid m Haid Hfind.
    pose proof (List.find_some _ _ Hfind) as [Hin _].
    rewrite List.Forall_forall in Hm. destruct (Hm m Hin) as [bytes Hbytes].
    exists bytes. split; [exact Hbytes|].
    unfold media_get, getMedia, readFileSync. unfold_M.
    rewrite Haid. cbn. rewrite Hfind. cbn. now rewrite Hbytes.
  - intros p rid c Hrid Hsel.
    destruct (select_consignment_row rid _ c Hsel) as (row & Hin & Hname).
    rewrite List.Forall_forall in Hc. destruct (Hc row Hin) as [bytes Hbytes].
    rewrite Hname in Hbytes. exists bytes. split; [exact Hbytes|].
    intros d n. unfold consignment_get, bind.
    rewrite (getConsignmentOrFail_found p rid c st' Hrid Hsel).
    unfold readFileSync. cbn [files]. rewrite Hbytes.
    destruct (Consignment.sender_amount c) as [text|]; [|discriminate].
    destruct (truthy (JStr text)); [|discriminate].
    destruct (JSON_parse text); discriminate.
Qed.

Lemma known_records_are_readable_witness :
  exists bytes,
    mediaDir (@run example_runtime example_platform
                [sample_post; sample_media_post; sample_ack_post true] initial_state)
    !! "WA==" = Some bytes /\
    media_get sample_media_params
      (@run example_runtime example_platform
         [sample_post; sample_media_post; sample_ack_post true] initial_state)
    = (Ok (base64_encode bytes),
       @run example_runtime example_platform
         [sample_post; sample_media_post; sample_ack_post true] initial_state).
Proof.
  assert (Hempty : files_present initial_state) by (split; constructor).
  destruct (@known_records_are_readable example_runtime example_platform
              [sample_post; sample_media_post; sample_ack_post true] initial_state Hempty)
    as (_ & Hmedia & _).
  apply (Hmedia sample_media_params "att1" (Media.mk "att1" "WA==")); reflexivity.
Defined.

(** ** Attachments *)

Lemma find_new_media (aid hash : string) (rows : list Media.t) :
  List.find (has_attachment aid) rows = None ->
  List.find (has_attachment aid) (rows ++ [Media.mk aid hash])
  = Some (Media.mk aid hash).
Proof.
  intros Hfresh. rewrite (find_app_none _ _ _ Hfresh). simpl.
  unfold has_attachment. simpl. now rewrite String.eqb_refl.
Qed.

Lemma attachments_of_none (aid : string) (rows : list Media.t) :
  List.find (has_attachment aid) rows = None ->
  List.filter (has_attachment aid) rows = [].
Proof.
  induction rows as [|row rows IH]; simpl; [reflexivity|].
  destruct (has_attachment aid row); [discriminate|exact IH].
Qed.

(** X1: a first [media.post] for an attachment id without a row answers
    [true]; a second one for the same id with a file of identical content
    answers [false], inserts nothing, leaves the media directory as it was
    and removes its staged upload; the id then has exactly one row. *)
Theorem media_post_twice `{Platform}
    (p p' : params) (f f' : File.t) (aid : string) (st : state) :
  getAttachmentIDParam p = Ok aid ->
  getAttachmentIDParam p' = Ok aid ->
  File.content f' = File.content f ->
  List.find (has_attachment aid) (media st) = None ->
  let first := media_post p (Some f) (stage (Some f) st) in
  let second := media_post p' (Some f') (stage (Some f') (snd first)) in
  fst first = Ok true /\
  fst second = Ok false /\
  length (List.filter (has_attachment aid) (media (snd second))) = 1 /\
  media (snd second) = media (snd first) /\
  mediaDir (snd second) = mediaDir (snd first) /\
  tempDir (snd second) !! File.filename f' = None.
Proof.
  intros Haid Haid' Hsame Hfresh first second.
  set (st1 := set_media (media st ++ [Media.mk aid (genHash (File.content f))])
                (store MediaDir (genHash (File.content f)) (File.content f)
                   (unstage (File.filename f) (stage (Some f) st)))).
  assert (Hfirst : first = (Ok true, st1)).
  { subst first. rewrite (media_post_staged p f _ _ (stage_lookup f st)), Haid.
    replace (media (stage (Some f) st)) with (media st) by reflexivity.
    now rewrite Hfresh. }
  assert (Hsecond : second = (Ok false, unstage (File.filename f') (stage (Some f') st1))).
  { subst second. rewrite Hfirst. cbn [snd].
    rewrite (media_post_staged p' f' _ _ (stage_lookup f' st1)), Haid'.
    replace (media (stage (Some f') st1))
      with (media st ++ [Media.mk aid (genHash (File.content f))])%list by reflexivity.
    rewrite (find_new_media aid _ _ Hfresh). cbn [Media.filename].
    now rewrite Hsame, String.eqb_refl. }
  rewrite Hsecond, Hfirst. cbn [fst snd].
  repeat split.
  - subst st1. cbn. rewrite List.filter_app, (attachments_of_none _ _ Hfresh).
    simpl. unfold has_attachment. simpl. now rewrite String.eqb_refl.
  - apply tempDir_unstage.
Qed.

Lemma media_post_twice_witness :
  let first := @media_post example_platform sample_media_params (Some sample_file)
                 (stage (Some sample_file) initial_state) in
  let second := @media_post example_platform sample_media_params (Some sample_file_again)
                  (stage (Some sample_file_again) (snd first)) in
  fst first = Ok true /\
  fst second = Ok false /\
  length (List.filter (has_attachment "att1") (media (snd second))) = 1 /\
  media (snd second) = media (snd first) /\
  mediaDir (snd second) = mediaDir (snd first) /\
  tempDir (snd second) !! File.filename sample_file_again = None.
Proof.
  exact (@media_post_twice example_platform sample_media_params sample_media_params
           sample_file sample_file_again "att1" initial_state
           eq_refl eq_refl eq_refl eq_refl).
Defined.

Section MediaReadBack.
Context `{JSRuntime} `{Platform}.

Lemma holds_media_step (aid : string) (bytes : list byte) (req : request) (st : state) :
  holds_media aid bytes st ->
  no_collision bytes req ->
  holds_media aid bytes (snd (handle_request req st)).
Proof.
  intros [Hfind Hfile] Hreq.
  destruct (handle_request_step req st) as (_ & _ & Hdir & Hmedia).
  split; [now apply (media_step_find aid _ _ _ Hmedia)|].
  destruct Hdir as [|g Hg]; [exact Hfile|].
  destruct (decide (genHash (File.content g) = genHash bytes)) as [Heq|Hne].
  - rewrite Heq, (Hreq g Hg Heq). apply lookup_insert_eq.
  - now rewrite lookup_insert_ne.
Qed.

Lemma holds_media_run (aid : string) (bytes : list byte) (reqs : list request)
    (st : state) :
  holds_media aid bytes st ->
  Forall (no_collision bytes) reqs ->
  holds_media aid bytes (run reqs st).
Proof.
  revert st. induction reqs as [|req reqs IH]; intros st Hst Hreqs; [exact Hst|].
  inversion Hreqs as [|? ? Hreq Hrest]; subst. simpl.
  apply IH; [|exact Hrest]. now apply holds_media_step.
Qed.

End MediaReadBack.

(** X2: once a [media.post] with payload [P] has answered [true] for an
    attachment id, a later [media.get] for that id (after any calls whose
    uploads do not collide with the digest of [P]) returns the Base64 text
    of [P], which decodes to [P]; for an id without a row [media.get] fails
    with [NotFoundMedia] and changes nothing. *)
Theorem media_get_returns_upload `{JSRuntime} `{Platform}
    (p q : params) (f : File.t) (aid : string) (reqs : list request) (st : state) :
  getAttachmentIDParam q = Ok aid ->
  fst (media_post q (Some f) (stage (Some f) st)) = Ok true ->
  Forall (no_collision (File.content f)) reqs ->
  getAttachmentIDParam p = Ok aid ->
  let st' := run reqs (snd (media_post q (Some f) (stage (Some f) st))) in
  media_get p st' = (Ok (base64_encode (File.content f)), st') /\
  base64_decode (base64_encode (File.content f)) = Some (File.content f) /\
  (forall p0 aid0 st0,
     getAttachmentIDParam p0 = Ok aid0 ->
     List.find (has_attachment aid0) (media st0) = None ->
     media_get p0 st0 = (Throw (NotFoundMedia p0), st0)).
Proof.
  intros Hq Htrue Hreqs Hp st'.
  split; [|split; [apply base64_decode_encode|]].
  - destruct (media_post_fresh q f st Htrue) as (aid0 & Haid0 & Hfresh & Hst1).
    assert (aid0 = aid) as -> by congruence.
    assert (Hholds : holds_media aid (File.content f) st').
    { subst st'. apply holds_media_run; [|exact Hreqs]. rewrite Hst1. split.
      - cbn [set_media media]. now apply find_new_media.
      - simpl. apply lookup_insert_eq. }
    destruct Hholds as [Hfind Hfile].
    unfold media_get, getMedia, readFileSync. unfold_M.
    rewrite Hp. cbn. rewrite Hfind. cbn. now rewrite Hfile.
  - intros p0 aid0 st0 Haid0 Hnone.
    unfold media_get, getMedia. unfold_M. rewrite Haid0. cbn. now rewrite Hnone.
Qed.

(** The attachment "X" is posted, then a consignment "X" and an attachment
    "Y" under another id, and the first attachment is read back. *)
Lemma media_get_returns_upload_witness :
  let st' := @run example_runtime example_platform
               [sample_post;
                mkRequest "media.post" second_media_params (Some other_file) 0]
               (snd (@media_post example_platform sample_media_params
                       (Some sample_file) (stage (Some sample_file) initial_state))) in
  media_get sample_media_params st' = (Ok "WA==", st') /\
  base64_decode "WA==" = Some (bytes_of_string "X").
Proof.
  pose proof (@media_get_returns_upload example_runtime example_platform
                sample_media_params sample_media_params sample_file "att1"
                [sample_post;
                 mkRequest "media.post" second_media_params (Some other_file) 0]
                initial_state eq_refl eq_refl) as Hget.
  cbn zeta in Hget.
  destruct Hget as (Hres & Hdec & _).
  - repeat constructor.
    + intros g [= <-] Hhash. reflexivity.
    + intros g [= <-] Hhash. discriminate Hhash.
  - reflexivity.
  - split; [exact Hres|exact Hdec].
Defined.

(** ** The order of the checks, and what a refused post leaves behind *)

(** X3: the two upload methods order their checks differently.  Without a
    file [consignment.post] fails with [MissingFile] whatever its
    parameters, while [media.post] first reports a missing or invalid
    [attachment_id] and only then the missing file; neither changes the
    state.  With a file, a failing extraction (recipient id, then txid, then
    vout; the attachment id) is what the call reports, even when the key is
    already bound, and the staged file is removed. *)
Theorem upload_checks_order `{JSRuntime} `{Platform} (p : params) (st : state) :
  consignment_post p None st = (Throw (MissingFile p), st) /\
  media_post p None st
  = (match getAttachmentIDParam p with
     | Ok _ => Throw (MissingFile p)
     | Throw e => Throw e
     end, st) /\
  (forall f e,
     consignment_post_params p = Throw e ->
     consignment_post p (Some f) (stage (Some f) st)
     = (Throw e, unstage (File.filename f) (stage (Some f) st))) /\
  (forall f e,
     getAttachmentIDParam p = Throw e ->
     media_post p (Some f) (stage (Some f) st)
     = (Throw e, unstage (File.filename f) (stage (Some f) st))).
Proof.
  split; [reflexivity|]. split; [|split].
  - unfold media_post, discard_upload. unfold_M. simpl.
    now destruct (getAttachmentIDParam p).
  - intros f e Hparams.
    now rewrite (consignment_post_staged p f _ _ (stage_lookup f st)), Hparams.
  - intros f e Hparams.
    now rewrite (media_post_staged p f _ _ (stage_lookup f st)), Hparams.
Qed.

(** A post for a recipient that is already bound, without a txid. *)
Lemma upload_checks_order_witness :
  @consignment_post example_runtime example_platform
    (Some (JObj [("recipient_id", JStr "blindTest")])) (Some sample_file)
    (stage (Some sample_file) sample_posted)
  = (Throw (MissingTxid (Some (JObj [("recipient_id", JStr "blindTest")]))),
     unstage (File.filename sample_file) (stage (Some sample_file) sample_posted)).
Proof.
  apply (proj1 (proj2 (proj2 (@upload_checks_order example_runtime example_platform
                                (Some (JObj [("recipient_id", JStr "blindTest")]))
                                sample_posted)))).
  reflexivity.
Defined.

(** X4: a post that does not answer [true] stores no row: both tables are
    as before; for [media.post] so are both permanent directories, and for
    [consignment.post] the media directory always and the consignment
    directory unless the failure is the database driver's. *)
Theorem refused_post_stores_no_row `{JSRuntime} `{Platform}
    (p : params) (file : option File.t) (st : state) :
  (fst (consignment_post p file (stage file st)) <> Ok true ->
   let st' := snd (consignment_post p file (stage file st)) in
   consignments st' = consignments st /\
   media st' = media st /\
   mediaDir st' = mediaDir st /\
   (fst (consignment_post p file (stage file st)) <> Throw SqliteBindError ->
    consignmentDir st' = consignmentDir st)) /\
  (fst (media_post p file (stage file st)) <> Ok true ->
   same_store st (snd (media_post p file (stage file st)))).
Proof.
  split.
  - destruct file as [f|]; [|intros _; cbn; repeat split].
    rewrite (consignment_post_staged p f _ _ (stage_lookup f st)).
    replace (consignments (stage (Some f) st)) with (consignments st) by reflexivity.
    destruct (consignment_post_params p) as [[[rid txid] vout]|e];
      [|intros _; cbn; repeat split].
    destruct (select_consignment rid (consignments st)) as [prev|].
    + destruct (String.eqb _ _); intros _; cbn; repeat split.
    + cbn zeta. destruct (sqlite_bindable vout); cbn; intros Hnot;
        [contradiction|].
      repeat split. intros Hdriver. contradiction.
  - destruct file as [f|].
    + rewrite (media_post_staged p f _ _ (stage_lookup f st)).
      replace (media (stage (Some f) st)) with (media st) by reflexivity.
      destruct (getAttachmentIDParam p) as [aid|e]; [|intros _; repeat split].
      destruct (List.find _ (media st)) as [prev|].
      * destruct (String.eqb _ _); intros _; repeat split.
      * intros Hnot. contradiction.
    + destruct (media_post_no_file p (stage None st)) as [e ->].
      intros _. repeat split.
Qed.

(** The payload "Y" posted for a recipient bound to "X". *)
Lemma refused_post_stores_no_row_witness :
  let st' := snd (@consignment_post example_runtime example_platform sample_params
                    (Some other_file) (stage (Some other_file) sample_store)) in
  consignments st' = consignments sample_store /\
  media st' = media sample_store /\
  mediaDir st' = mediaDir sample_store /\
  (fst (@consignment_post example_runtime example_platform sample_params
          (Some other_file) (stage (Some other_file) sample_store))
   <> Throw SqliteBindError ->
   consignmentDir st' = consignmentDir sample_store).
Proof.
  apply (proj1 (@refused_post_stores_no_row example_runtime example_platform
                  sample_params (Some other_file) sample_store)).
  discriminate.
Defined.

(** ** The temp directory, and the calls that only read *)

Section TempDir.
Context `{JSRuntime} `{Platform}.

Lemma state_eq (st st' : state) :
  same_store st st' -> tempDir st' = tempDir st -> st' = st.
Proof.
  destruct st, st'. unfold same_store. simpl. intros (-> & -> & -> & ->) ->.
  reflexivity.
Qed.

(** After [receive] the file of the call is either still staged or gone;
    nothing else in the temp directory has moved. *)
Lemma receive_tempDir (name : string) (p : params) (file : option File.t)
    (uptime : Z) (st : state) :
  let st1 := snd (receive name p file uptime (stage file st)) in
  tempDir st1 = tempDir (stage file st) \/ tempDir st1 = tempDir_after file st.
Proof.
  cbn zeta. unfold receive.
  destruct (String.eqb_spec name "server.info"); [rewrite fmap_M_state; now left|].
  destruct (String.eqb_spec name "consignment.get");
    [rewrite fmap_M_state, consignment_get_state; now left|].
  destruct (String.eqb_spec name "consignment.post").
  { rewrite fmap_M_state. destruct file as [f|]; [|now left].
    right. rewrite (consignment_post_staged p f _ _ (stage_lookup f st)).
    destruct (consignment_post_params p) as [[[rid txid] vout]|err];
      [|cbn; apply delete_insert_eq].
    destruct (select_consignment rid _) as [prev|].
    - destruct (String.eqb _ _); cbn; apply delete_insert_eq.
    - cbn zeta. destruct (sqlite_bindable vout); cbn; apply delete_insert_eq. }
  destruct (String.eqb_spec name "media.get");
    [rewrite fmap_M_state, media_get_state; now left|].
  destruct (String.eqb_spec name "media.post").
  { rewrite fmap_M_state. destruct file as [f|].
    - right. rewrite (media_post_staged p f _ _ (stage_lookup f st)).
      destruct (getAttachmentIDParam p) as [aid|err]; [|cbn; apply delete_insert_eq].
      destruct (List.find _ _) as [prev|].
      + destruct (String.eqb _ _); cbn; apply delete_insert_eq.
      + cbn. apply delete_insert_eq.
    - destruct (media_post_no_file p (stage None st)) as [err ->]. now left. }
  destruct (String.eqb_spec name "ack.get");
    [rewrite fmap_M_state, ack_get_state; now left|].
  destruct (String.eqb_spec name "ack.post"); [|now left].
  rewrite fmap_M_state.
  destruct (ack_post_state p (stage file st)) as [->|(rid & c & v & _ & _ & ->)];
    now left.
Qed.

Lemma handle_request_tempDir (req : request) (st : state)
    (answer : result rpc_value) (st' : state) :
  handle_request req st = (Some answer, st') ->
  tempDir st' = tempDir_after (req_file req) st.
Proof.
  unfold handle_request.
  destruct (parse_params (rpc_params req)) as [q|]; [|discriminate].
  destruct (logs_params q); [|discriminate]. cbn [negb].
  pose proof (receive_tempDir (rpc_method req) q (req_file req) (req_uptime req) st)
    as Htemp. cbn zeta in Htemp.
  destruct (receive _ _ _ _ _) as [r st1]. cbn [snd] in Htemp.
  destruct (logs_response r); [|discriminate]. cbn [negb].
  intros [= _ <-]. destruct (req_file req) as [f|]; [|now destruct Htemp].
  unfold delete_unhandled, tempDir_after in *.
  destruct Htemp as [Hstaged|Hgone].
  - assert (Hl : tempDir st1 !! File.filename f = Some (File.content f))
      by (rewrite Hstaged; apply stage_lookup).
    rewrite Hl. cbn. rewrite Hstaged. cbn. apply delete_insert_eq.
  - assert (Hl : tempDir st1 !! File.filename f = None)
      by (rewrite Hgone; apply lookup_delete_eq).
    rewrite Hl. cbn. exact Hgone.
Qed.

End TempDir.

(** X10: an answered call leaves the temp directory as it found it, less
    the name its own file was staged under: the staged files of other calls
    are never touched, and a call without a file changes nothing there. *)
Theorem answered_call_cleans_only_its_file `{JSRuntime} `{Platform}
    (req : request) (st : state) (answer : result rpc_value) (st' : state) :
  handle_request req st = (Some answer, st') ->
  tempDir st' = tempDir_after (req_file req) st /\
  (forall name,
     (forall f, req_file req = Some f -> File.filename f <> name) ->
     tempDir st' !! name = tempDir st !! name).
Proof.
  intros Hcall. pose proof (handle_request_tempDir req st answer st' Hcall) as Htemp.
  split; [exact Htemp|]. intros name Hother. rewrite Htemp.
  destruct (req_file req) as [f|]; [|reflexivity].
  cbn. apply lookup_delete_ne. now apply Hother.
Qed.

(** The sample post is handled while another call's upload sits in the temp
    directory. *)
Lemma answered_call_cleans_only_its_file_witness :
  tempDir (snd (@handle_request example_runtime example_platform sample_post
                  (stage (Some other_file) initial_state)))
  !! "upload-3" = Some (bytes_of_string "Y").
Proof.
  rewrite (proj2 (@answered_call_cleans_only_its_file example_runtime example_platform
                    sample_post (stage (Some other_file) initial_state)
                    (Ok (VBool true))
                    (snd (@handle_request example_runtime example_platform sample_post
                            (stage (Some other_file) initial_state)))
                    eq_refl) "upload-3").
  - reflexivity.
  - intros f [= <-]. discriminate.
Defined.

(** X11: only [consignment.post], [media.post] and [ack.post] can change the
    tables or the permanent directories: a call to any other method
    ([server.info], the three reads, an unknown name) leaves them as they
    were, and when it carries no file the whole state is unchanged. *)
Theorem other_methods_only_read `{JSRuntime} `{Platform} (req : request) (st : state) :
  rpc_method req <> "consignment.post" ->
  rpc_method req <> "media.post" ->
  rpc_method req <> "ack.post" ->
  same_store st (snd (handle_request req st)) /\
  (req_file req = None -> snd (handle_request req st) = st).
Proof.
  intros Hc Hm Ha.
  assert (Hsame : same_store st (snd (handle_request req st))).
  { destruct (handle_request_store_step req st) as [Hsame| | | |]; congruence. }
  split; [exact Hsame|]. intros Hfile. apply state_eq; [exact Hsame|].
  destruct (handle_request req st) as [[answer|] st'] eqn:Hcall; cbn [snd].
  - rewrite (handle_request_tempDir req st answer st' Hcall), Hfile. reflexivity.
  - unfold handle_request in Hcall.
    destruct (parse_params (rpc_params req)) as [q|];
      [|injection Hcall as <-; now rewrite Hfile].
    destruct (logs_params q); [|injection Hcall as <-; now rewrite Hfile].
    cbn [negb] in Hcall.
    pose proof (receive_tempDir (rpc_method req) q (req_file req) (req_uptime req) st)
      as Htemp. cbn zeta in Htemp.
    destruct (receive _ _ _ _ _) as [r st1]. cbn [snd] in Htemp.
    destruct (logs_response r); [discriminate|]. injection Hcall as <-.
    rewrite Hfile in Htemp. now destruct Htemp.
Qed.

Lemma other_methods_only_read_witness :
  snd (@handle_request example_runtime example_platform sample_get sample_store)
  = sample_store.
Proof.
  apply (@other_methods_only_read example_runtime example_platform sample_get sample_store);
    (discriminate || reflexivity).
Defined.

(** ** A settled flag, seen from the caller *)

(** X12: once [ack.post] has answered [true] with a value [v] for a
    recipient, then after any sequence of calls [ack.get] for that recipient
    returns [v], a further [ack.post] with [v] answers [false], and one with
    the other value fails with [CannotChangeAck]; none of them changes the
    state. *)
Theorem settled_ack_answers `{JSRuntime} `{Platform}
    (p q : params) (rid : string) (v w : bool) (reqs : list request) (st : state) :
  getRecipientIDParam p = Ok rid ->
  getAckParam p = Ok v ->
  fst (ack_post p st) = Ok true ->
  getRecipientIDParam q = Ok rid ->
  getAckParam q = Ok w ->
  let st' := run reqs (snd (ack_post p st)) in
  ack_get q st' = (Ok (Some v), st') /\
  ack_post q st'
  = (if Bool.eqb v w then Ok false else Throw (CannotChangeAck q), st').
Proof.
  intros Hp Hv Htrue Hq Hw st'.
  assert (Hsettled : ack_state rid (snd (ack_post p st)) = Some (Some v)).
  { revert Htrue. unfold ack_post, bind.
    destruct (select_consignment rid (consignments st)) as [c|] eqn:Hsel.
    - rewrite (getConsignmentOrFail_found p rid c st Hp Hsel).
      unfold lift. rewrite Hv.
      destruct (Consignment.ack c) as [stored|] eqn:Hack.
      + destruct (Bool.eqb stored v); discriminate.
      + intros _. rewrite (select_consignment_recipient _ _ _ Hsel).
        unfold update_ack, ret, ack_state. cbn.
        fold (settle rid v (consignments st)).
        now rewrite (select_settle_same rid v _ c Hsel).
    - rewrite (getConsignmentOrFail_unknown p rid st Hp Hsel). discriminate. }
  pose proof (settled_stays rid v reqs _ Hsettled) as Hlater.
  fold st' in Hlater. unfold ack_state in Hlater.
  destruct (select_consignment rid (consignments st')) as [c'|] eqn:Hsel'; [|discriminate].
  injection Hlater as Hack'.
  unfold ack_get, ack_post, bind.
  rewrite (getConsignmentOrFail_found q rid c' st' Hq Hsel').
  unfold lift, ret. rewrite Hw, Hack'. split; [reflexivity|].
  now destruct (Bool.eqb v w).
Qed.

(** The sample consignment is acknowledged; a read, a re-post and an
    attachment follow; then the flag is read and set again, both ways. *)
Lemma settled_ack_answers_witness :
  let st' := @run example_runtime example_platform
               [sample_get; sample_post; sample_media_post]
               (snd (ack_post (sample_ack_params true) sample_posted)) in
  ack_get (sample_ack_params false) st' = (Ok (Some true), st') /\
  ack_post (sample_ack_params false) st'
  = (Throw (CannotChangeAck (sample_ack_params false)), st').
Proof.
  exact (@settled_ack_answers example_runtime example_platform
           (sample_ack_params true) (sample_ack_params false) "blindTest" true false
           [sample_get; sample_post; sample_media_post] sample_posted
           eq_refl eq_refl eq_refl eq_refl eq_refl).
Defined.

(** ** More on the extractors *)

(** X13: a boolean passes the integer test of [getVoutParam]: [Number]
    turns [true] into 1 and [false] into 0, so a [vout] that is a boolean is
    returned as it came instead of being refused with [InvalidVout]. *)
Theorem vout_boolean_accepted `{JSRuntime} (p : params) (b : bool) :
  field "vout" p = Some (JBool b) ->
  isNumber (JBool b) = Ok true /\
  getVoutParam p = Ok (Some (JBool b)).
Proof.
  intros Hfield.
  assert (Hnum : isNumber (JBool b) = Ok true) by now destruct b.
  split; [exact Hnum|].
  destruct p as [[| c | n | s | items | entries]|]; try discriminate.
  unfold getVoutParam. simpl in Hfield. now rewrite Hfield, Hnum.
Qed.

Lemma vout_boolean_accepted_witness :
  @getVoutParam example_runtime boolean_vout_params = Ok (Some (JBool true)).
Proof.
  apply (proj2 (@vout_boolean_accepted example_runtime boolean_vout_params true eq_refl)).
Defined.

(** ** Recipients do not interfere *)

Lemma select_app_other (rid rid' : string) (rows : list ConsignmentDB.t)
    (row : ConsignmentDB.t) :
  ConsignmentDB.recipient_id row = rid ->
  rid' <> rid ->
  select_consignment rid' (rows ++ [row]) = select_consignment rid' rows.
Proof.
  intros Hrow Hne. unfold select_consignment.
  destruct (List.find (has_recipient rid') rows) as [r|] eqn:Hfind.
  - now rewrite (find_app_some _ _ [row] _ Hfind).
  - rewrite (find_app_none _ _ _ Hfind). simpl. unfold has_recipient.
    rewrite Hrow. destruct (String.eqb_spec rid rid') as [Heq|_]; [congruence|reflexivity].
Qed.

(** X16: a call made for one recipient leaves every other recipient's
    record alone: after [ack.post] or [consignment.post] with a given
    [recipient_id], the lookup of any other id gives what it gave before
    (same columns, same flag, or still no record). *)
Theorem other_recipients_untouched `{JSRuntime} `{Platform}
    (p : params) (rid rid' : string) (file : option File.t) (st : state) :
  getRecipientIDParam p = Ok rid ->
  rid' <> rid ->
  select_consignment rid' (consignments (snd (ack_post p st)))
  = select_consignment rid' (consignments st) /\
  select_consignment rid' (consignments (snd (consignment_post p file (stage file st))))
  = select_consignment rid' (consignments st).
Proof.
  intros Hrid Hne. split.
  - unfold ack_post, bind.
    destruct (select_consignment rid (consignments st)) as [c|] eqn:Hsel.
    + rewrite (getConsignmentOrFail_found p rid c st Hrid Hsel). unfold lift.
      destruct (getAckParam p) as [v|e]; [|reflexivity].
      destruct (Consignment.ack c) as [stored|].
      * destruct (Bool.eqb stored v); reflexivity.
      * rewrite (select_consignment_recipient _ _ _ Hsel).
        unfold update_ack, ret. cbn.
        exact (select_after_update_other rid rid' _ _ Hne).
    + now rewrite (getConsignmentOrFail_unknown p rid st Hrid Hsel).
  - destruct file as [f|]; [|reflexivity].
    rewrite (consignment_post_staged p f _ _ (stage_lookup f st)).
    replace (consignments (stage (Some f) st)) with (consignments st) by reflexivity.
    unfold consignment_post_params. rewrite Hrid.
    destruct (getTxidParam p) as [txid|e]; [|reflexivity].
    destruct (getVoutParam p) as [vout|e]; [|reflexivity].
    destruct (select_consignment rid (consignments st)) as [prev|].
    + destruct (String.eqb _ _); reflexivity.
    + cbn zeta. destruct (sqlite_bindable vout); [|reflexivity].
      cbn [snd set_consignments consignments].
      now apply (select_app_other rid rid').
Qed.

(** The second recipient is bound and acknowledged; the first stays unset. *)
Lemma other_recipients_untouched_witness :
  select_consignment "blindTest"
    (consignments (snd (ack_post
                          (Some (JObj [("recipient_id", JStr "blindTest2");
                                       ("ack", JBool false)]))
                          sample_posted)))
  = select_consignment "blindTest" (consignments sample_posted).
Proof.
  apply (proj1 (@other_recipients_untouched example_runtime example_platform
                  (Some (JObj [("recipient_id", JStr "blindTest2"); ("ack", JBool false)]))
                  "blindTest2" "blindTest" None sample_posted eq_refl
                  ltac:(discriminate))).
Defined.

(** ** The UNIQUE constraints are never hit *)

Section NoConstraintFailure.
Context `{JSRuntime} `{Platform}.

Lemma required_extractors_errors (p : params) :
  getRecipientIDParam p <> Throw SqliteConstraintUnique /\
  getTxidParam p <> Throw SqliteConstraintUnique /\
  getAttachmentIDParam p <> Throw SqliteConstraintUnique.
Proof.
  unfold getRecipientIDParam, getTxidParam, getAttachmentIDParam.
  destruct p as [[| b | n | s | items | entries]|]; repeat split; try discriminate.
  - destruct (obj_get "recipient_id" entries) as [[| b | n | s | items | es]|];
      simpl; rewrite ?orb_true_r; try discriminate;
      destruct (String.eqb _ ""); discriminate.
  - destruct (obj_get "txid" entries) as [[| b | n | s | items | es]|];
      simpl; rewrite ?orb_true_r; try discriminate;
      destruct (String.eqb _ ""); discriminate.
  - destruct (obj_get "attachment_id" entries) as [[| b | n | s | items | es]|];
      simpl; rewrite ?orb_true_r; try discriminate;
      destruct (String.eqb _ ""); discriminate.
Qed.

Lemma getVoutParam_errors (p : params) :
  (forall v, ObjectToNumber v <> Throw SqliteConstraintUnique) ->
  getVoutParam p <> Throw SqliteConstraintUnique.
Proof.
  intros Hruntime. unfold getVoutParam.
  destruct p as [[| b | n | s | items | entries]|]; try discriminate.
  destruct (obj_get "vout" entries) as [v|]; [|discriminate].
  unfold isNumber, Number.
  destruct v as [| b | n | s | items | es]; simpl; try discriminate.
  - destruct b; discriminate.
  - destruct (Number_isInteger n); discriminate.
  - destruct (Number_isInteger (StringToNumber s)); discriminate.
  - pose proof (Hruntime (JArr items)) as Hv.
    destruct (ObjectToNumber (JArr items)) as [x|e]; [|congruence].
    destruct (Number_isInteger x); discriminate.
  - pose proof (Hruntime (JObj es)) as Hv.
    destruct (ObjectToNumber (JObj es)) as [x|e]; [|congruence].
    destruct (Number_isInteger x); discriminate.
Qed.

End NoConstraintFailure.

(** X9: the upload methods look the key up before they insert, so an
    insert never runs into the UNIQUE constraint of its table: whatever the
    parameters, the file and the state, neither method fails with a
    uniqueness violation (given that the conversion of an object to a
    number does not fail with one). *)
Theorem insert_never_violates_uniqueness `{JSRuntime} `{Platform}
    (p : params) (file : option File.t) (st : state) :
  (forall v, ObjectToNumber v <> Throw SqliteConstraintUnique) ->
  fst (consignment_post p file (stage file st)) <> Throw SqliteConstraintUnique /\
  fst (media_post p file (stage file st)) <> Throw SqliteConstraintUnique.
Proof.
  intros Hruntime.
  destruct (required_extractors_errors p) as (Hrid & Htxid & Haid).
  pose proof (getVoutParam_errors p Hruntime) as Hvout.
  split.
  - destruct file as [f|]; [|discriminate].
    rewrite (consignment_post_staged p f _ _ (stage_lookup f st)).
    unfold consignment_post_params.
    destruct (getRecipientIDParam p) as [rid|e]; [|cbn; congruence].
    destruct (getTxidParam p) as [txid|e]; [|cbn; congruence].
    destruct (getVoutParam p) as [vout|e]; [|cbn; congruence].
    destruct (select_consignment rid _) as [prev|].
    + destruct (String.eqb _ _); discriminate.
    + cbn zeta. destruct (sqlite_bindable vout); discriminate.
  - destruct file as [f|].
    + rewrite (media_post_staged p f _ _ (stage_lookup f st)).
      destruct (getAttachmentIDParam p) as [aid|e]; [|cbn; congruence].
      destruct (List.find _ _) as [prev|]; [|discriminate].
      destruct (String.eqb _ _); discriminate.
    + unfold media_post, discard_upload. unfold_M. cbn.
      destruct (getAttachmentIDParam p) as [aid|e]; cbn; [discriminate|congruence].
Qed.

Lemma insert_never_violates_uniqueness_witness :
  fst (@consignment_post example_runtime example_platform sample_params
         (Some sample_file_again) (stage (Some sample_file_again) sample_store))
  <> Throw SqliteConstraintUnique.
Proof.
  apply (@insert_never_violates_uniqueness example_runtime example_platform
           sample_params (Some sample_file_again) sample_store).
  intros v. destruct v; discriminate.
Defined.

(** ** The [ack] column *)

Section AckColumn.
Context `{JSRuntime} `{Platform}.

Lemma ack_column_step (req : request) (st : state) :
  Forall ack_column_ok (consignments st) ->
  Forall ack_column_ok (consignments (snd (handle_request req st))).
Proof.
  intros Hst.
  destruct (handle_request_store_step req st)
    as [(Hc1 & _)
       |f row _ _ _ Hunset _ Hc1 _ _ _
       |f _ _ Hc1 _ _ _
       |f m _ _ _ _ _ _ Hc1 _
       |rid c v _ _ _ Hc1 _ _ _];
    rewrite Hc1; try exact Hst.
  - apply Forall_app. split; [exact Hst|]. repeat constructor. exact Hunset.
  - unfold settle. apply List.Forall_map.
    eapply Forall_impl; [exact Hst|]. intros row Hrow.
    destruct (has_recipient rid row); [|exact Hrow].
    unfold ack_column_ok. simpl. destruct v; auto.
Qed.

Lemma ack_column_run (reqs : list request) (st : state) :
  Forall ack_column_ok (consignments st) ->
  Forall ack_column_ok (consignments (run reqs st)).
Proof.
  revert st. induction reqs as [|req reqs IH]; intros st Hst; [exact Hst|].
  simpl. apply IH. now apply ack_column_step.
Qed.

End AckColumn.

(** X17: the [ack] column only ever holds NULL, 0 or 1: a row is inserted
    with NULL and [ack.post] writes 1 for [true] and 0 for [false], so if
    every row of the table is within these values it stays so after any
    sequence of calls. *)
Theorem ack_column_values `{JSRuntime} `{Platform} (reqs : list request) (st : state) :
  Forall ack_column_ok (consignments st) ->
  forall row, In row (consignments (run reqs st)) -> ack_column_ok row.
Proof.
  intros Hst. apply List.Forall_forall. now apply ack_column_run.
Qed.

Lemma ack_column_values_witness :
  ack_column_ok
    (ConsignmentDB.mk "blindTest" "WA==" "t1" None (Some 0%Z) None).
Proof.
  apply (@ack_column_values example_runtime example_platform
           [sample_post; sample_ack_post false; sample_ack_post true] initial_state).
  - constructor.
  - vm_compute. left. reflexivity.
Defined.
